(** * break-tracker: the polling loop of [tracker.py]

    A shallow embedding of [append_row] and [poll_loop] together with the
    pieces of Python's [datetime] and string formatting that they call, and
    the properties of the transition detection, duration accounting and
    failure handling that the loop implements.

    Conventions of the embedding.
    - A Python [datetime] is the record of its calendar fields; subtraction
      goes through the proleptic Gregorian ordinal, as CPython's does.
    - A Python [float] holding a number of minutes is an exact rational [Q]:
      rounding error of the binary representation is not modelled.
    - The [try] body of the loop runs in a small state-and-exception monad
      over the two local variables of the loop and a trace of the calls it
      makes; an exception abandons the rest of the body and keeps the
      assignments already made.
    - What the outside world does in one iteration (the answer of the
      device, the clock, whether the spreadsheet accepts a row) is an input
      of the iteration. *)

From Stdlib Require Import ZArith QArith Qabs String Ascii List Bool Lia.
From stdpp Require Import base option strings gmap.

Import ListNotations.
Local Open Scope string_scope.
Local Open Scope list_scope.
Local Open Scope Z_scope.

(** ** Decimal rendering and padding *)

Module Fmt.

Definition digit_char (d : Z) : ascii := ascii_of_N (48 + Z.to_N d).

Definition is_digit (c : ascii) : bool :=
  let n := N_of_ascii c in (48 <=? n)%N && (n <=? 57)%N.

(** Digits of a non-negative integer, most significant first. *)
Fixpoint decimal_aux (fuel : nat) (n : Z) (acc : string) : string :=
  match fuel with
  | O => acc
  | S fuel' =>
      let acc' := String (digit_char (n mod 10)) acc in
      if n <? 10 then acc' else decimal_aux fuel' (n / 10) acc'
  end.

(** [str(n)] for [n >= 0]. *)
Definition decimal (n : Z) : string :=
  decimal_aux (S (Z.to_nat (Z.log2 n))) n "".

Fixpoint replicate_char (n : nat) (c : ascii) : string :=
  match n with
  | O => ""
  | S n' => String c (replicate_char n' c)
  end.

(** [s.rjust(w, c)], [s.ljust(w, c)]: no truncation of longer strings. *)
Definition rjust (w : nat) (c : ascii) (s : string) : string :=
  replicate_char (w - String.length s) c +:+ s.

Definition ljust (w : nat) (c : ascii) (s : string) : string :=
  s +:+ replicate_char (w - String.length s) c.

(** A zero-padded decimal field, as [%02d] and [%04d] print it. *)
Definition zero_padded (w : nat) (n : Z) : string :=
  rjust w "0"%char (decimal n).

(** Round a non-negative rational [n/d] to the nearest integer, ties to
    the even neighbour. *)
Definition round_half_even (n : Z) (d : Z) : Z :=
  let fl := n / d in
  let r := n mod d in
  match 2 * r ?= d with
  | Lt => fl
  | Gt => fl + 1
  | Eq => if Z.even fl then fl else fl + 1
  end.

(** [f"{x:.1f}"]: sign, integer part, a point, one digit. *)
Definition format_1f (x : Q) : string :=
  let tenths := round_half_even (Z.abs (Qnum x) * 10) (Zpos (Qden x)) in
  (if Qnum x <? 0 then "-" else "")
    +:+ decimal (tenths / 10) +:+ "." +:+ decimal (tenths mod 10).

(** Shape of a number printed with exactly one decimal place. *)
Fixpoint digits_point_digit (seen : bool) (s : string) : bool :=
  match s with
  | "" => false
  | String c rest =>
      if is_digit c then digits_point_digit true rest
      else if Ascii.eqb c "."%char then
        seen && match rest with
                | String d "" => is_digit d
                | _ => false
                end
      else false
  end.

Definition one_decimal_shape (s : string) : bool :=
  match s with
  | "" => false
  | String c rest =>
      if Ascii.eqb c "-"%char then digits_point_digit false rest
      else digits_point_digit false s
  end.

Fixpoint all_digits (s : string) : bool :=
  match s with
  | "" => true
  | String c rest => is_digit c && all_digits rest
  end.

End Fmt.

(** ** The part of [datetime] used by the loop *)

Module Datetime.

Record datetime := mk_datetime {
  year : Z; month : Z; day : Z;
  hour : Z; minute : Z; second : Z; microsecond : Z
}.

Definition is_leap (y : Z) : bool :=
  (y mod 4 =? 0) && (negb (y mod 100 =? 0) || (y mod 400 =? 0)).

Definition days_in_month (y m : Z) : Z :=
  if (m =? 2) && is_leap y then 29
  else nth (Z.to_nat m) [0; 31; 28; 31; 30; 31; 30; 31; 31; 30; 31; 30; 31] 0.

(** The field ranges every [datetime] object satisfies. *)
Definition valid (d : datetime) : Prop :=
  1 <= year d <= 9999 /\ 1 <= month d <= 12 /\
  1 <= day d <= days_in_month (year d) (month d) /\
  0 <= hour d <= 23 /\ 0 <= minute d <= 59 /\ 0 <= second d <= 59 /\
  0 <= microsecond d <= 999999.

Definition days_before_year (y : Z) : Z :=
  let y' := y - 1 in y' * 365 + y' / 4 - y' / 100 + y' / 400.

Definition days_before_month (y m : Z) : Z :=
  nth (Z.to_nat m) [0; 0; 31; 59; 90; 120; 151; 181; 212; 243; 273; 304; 334] 0
  + (if (2 <? m) && is_leap y then 1 else 0).

Definition toordinal (d : datetime) : Z :=
  days_before_year (year d) + days_before_month (year d) (month d) + day d.

(** Microseconds since the start of day 0 of the ordinal calendar. *)
Definition instant (d : datetime) : Z :=
  ((toordinal d * 86400
    + (second d + minute d * 60 + hour d * 3600)) * 1000000)
  + microsecond d.

(** [(a - b).total_seconds()] for two aware datetimes of the same zone. *)
Definition sub_total_seconds (a b : datetime) : Q :=
  inject_Z (((toordinal a - toordinal b) * 86400
             + ((second a + minute a * 60 + hour a * 3600)
                - (second b + minute b * 60 + hour b * 3600))) * 1000000
            + (microsecond a - microsecond b))
  / inject_Z 1000000.

(** [d.strftime("%Y-%m-%d %H:%M:%S UTC")]. *)
Definition strftime (d : datetime) : string :=
  Fmt.zero_padded 4 (year d) +:+ "-" +:+ Fmt.zero_padded 2 (month d) +:+ "-"
    +:+ Fmt.zero_padded 2 (day d) +:+ " "
    +:+ Fmt.zero_padded 2 (hour d) +:+ ":" +:+ Fmt.zero_padded 2 (minute d)
    +:+ ":" +:+ Fmt.zero_padded 2 (second d) +:+ " UTC".

(** ["YYYY-MM-DD HH:MM:SS UTC"]: digits at the letter positions and the
    literal separators elsewhere. *)
Definition timestamp_shape (s : string) : bool :=
  match list_ascii_of_string s with
  | [y1; y2; y3; y4; s1; m1; m2; s2; d1; d2; s3;
     h1; h2; s4; n1; n2; s5; c1; c2; s6; u; t; c] =>
      forallb Fmt.is_digit [y1; y2; y3; y4; m1; m2; d1; d2; h1; h2; n1; n2; c1; c2]
      && String.eqb (string_of_list_ascii [s1; s2; s3; s4; s5; s6; u; t; c])
                    "-- :: UTC"
  | _ => false
  end.

End Datetime.

(** ** The loop of [tracker.py] *)

Module Tracker.

Import Fmt Datetime.

(** A value of the YAML configuration document. *)
#[local] Set Warnings "-register-all".
Inductive yaml :=
| YNull
| YBool (b : bool)
| YInt (n : Z)
| YFloat (q : Q)
| YStr (s : string)
| YMap (entries : list (string * yaml)).

(** The arguments of one call of [append_row] (the sheet and the mode
    apart): one event. *)
Record call := mk_call {
  timestamp : string;
  event : string;
  duration_min : option Q;
  notes : string
}.

(** What the loop does to the outside, in the order it does it.
    [AppendRowCall] marks the call of [append_row] on lines 117 and 122:
    the event is emitted there, whatever the sink then does with it. *)
Inductive effect :=
| AppendRowCall (c : call)
| Print (line : string)
| SheetAppendRow (row : list string)
| SheetAppendRowRaised (row : list string)
| LogInfo (msg : string)
| LogWarning (msg : string)
| Sleep (delay : yaml).

(** The two local variables of [poll_loop] and the effects so far. *)
Record loop_state := mk_state {
  prev_state : option string;
  last_open_time : option datetime;
  trace : list effect
}.

Definition initial : loop_state :=
  {| prev_state := None; last_open_time := None; trace := [] |}.

(** What the outside does during one iteration. [door.state] is an
    [Optional[str]]: the device may report no state at all. *)
Inductive poll :=
| PollRaises (msg : string)
| PollReturns (state : option string).

Record env := mk_env {
  door : poll;                  (* [await door.update()] then [door.state] *)
  clock : datetime;             (* [datetime.now(timezone.utc)] *)
  sheet_error : option string   (* [sheet.append_row] raises this, if any *)
}.

(** *** Statements that may raise *)

Inductive result (A : Type) :=
| Ok (a : A)
| Raise (msg : string).
Arguments Ok {A} a.
Arguments Raise {A} msg.

Definition M (A : Type) : Type := loop_state -> result A * loop_state.

Definition ret {A} (a : A) : M A := fun s => (Ok a, s).

Definition raise {A} (msg : string) : M A := fun s => (Raise msg, s).

Definition bind {A B} (m : M A) (f : A -> M B) : M B :=
  fun s =>
    match m s with
    | (Ok a, s') => f a s'
    | (Raise msg, s') => (Raise msg, s')
    end.

Declare Scope stmt_scope.
Delimit Scope stmt_scope with stmt.
Bind Scope stmt_scope with M.
Notation "x <- m ;; k" := (bind m (fun x => k))
  (at level 100, m at next level, k at level 200, right associativity)
  : stmt_scope.
Notation "m ;; k" := (bind m (fun _ => k))
  (at level 100, k at level 200, right associativity) : stmt_scope.
Local Open Scope stmt_scope.

Definition emit (e : effect) : M unit :=
  fun s => (Ok tt, {| prev_state := prev_state s;
                      last_open_time := last_open_time s;
                      trace := trace s ++ [e] |}).

Definition get_prev_state : M (option string) := fun s => (Ok (prev_state s), s).

Definition get_last_open_time : M (option datetime) :=
  fun s => (Ok (last_open_time s), s).

Definition set_prev_state (v : option string) : M unit :=
  fun s => (Ok tt, {| prev_state := v;
                      last_open_time := last_open_time s;
                      trace := trace s |}).

Definition set_last_open_time (v : option datetime) : M unit :=
  fun s => (Ok tt, {| prev_state := prev_state s;
                      last_open_time := v;
                      trace := trace s |}).

(** *** [append_row] *)

(** [sheet.append_row(row, ...)]: the row is stored, or the call raises. *)
Definition sheet_append_row (err : option string) (row : list string) : M unit :=
  match err with
  | None => emit (SheetAppendRow row)
  | Some msg => emit (SheetAppendRowRaised row) ;; raise msg
  end.

Definition dur_str_of (duration_min : option Q) : string :=
  match duration_min with
  | Some d => format_1f d
  | None => ""
  end.

Definition row_of (c : call) : list string :=
  [timestamp c; event c; dur_str_of (duration_min c); notes c].

Definition dry_run_line (c : call) : string :=
  "[DRY RUN]  " +:+ timestamp c +:+ "  " +:+ ljust 6 " "%char (event c)
    +:+ "  dur=" +:+ rjust 6 " "%char (dur_str_of (duration_min c))
    +:+ " min  notes=" +:+ notes c.

Definition logged_line (c : call) : string :=
  let dur_str := dur_str_of (duration_min c) in
  "Logged: " +:+ timestamp c +:+ "  " +:+ event c +:+ "  duration="
    +:+ (if String.eqb dur_str "" then "n/a" else dur_str) +:+ " min".

Definition append_row (sheet : option string) (timestamp event : string)
    (duration_min : option Q) (notes : string) (dry_run : bool) : M unit :=
  let c := mk_call timestamp event duration_min notes in
  emit (AppendRowCall c) ;;
  let row := row_of c in
  if dry_run then emit (Print (dry_run_line c))
  else
    sheet_append_row sheet row ;;
    emit (LogInfo (logged_line c)).

(** *** One iteration of [while True] *)

Definition door_update (e : env) : M (option string) :=
  match door e with
  | PollRaises msg => raise msg
  | PollReturns state => ret state
  end.

(** [current_state != prev_state]. *)
Definition differs (current_state prev : option string) : bool :=
  match current_state, prev with
  | Some c, Some p => negb (String.eqb c p)
  | None, None => false
  | _, _ => true
  end.

(** [current_state == literal]. *)
Definition equals (current_state : option string) (literal : string) : bool :=
  match current_state with
  | Some c => String.eqb c literal
  | None => false
  end.

Definition is_not_none {A} (o : option A) : bool :=
  match o with
  | None => false
  | Some _ => true
  end.

(** The body of the [try]. *)
Definition try_body (dry_run : bool) (e : env) : M unit :=
  current_state <- door_update e ;;
  let now := clock e in
  let ts := strftime now in
  prev <- get_prev_state ;;
  (if differs current_state prev && is_not_none prev then
     if equals current_state "open" then
       set_last_open_time (Some now) ;;
       append_row (sheet_error e) ts "OPEN" None "" dry_run
     else if equals current_state "closed" then
       last <- get_last_open_time ;;
       let duration_min :=
         match last with
         | Some t0 => Some (sub_total_seconds now t0 / 60)%Q
         | None => None
         end in
       append_row (sheet_error e) ts "CLOSE" duration_min "" dry_run ;;
       set_last_open_time None
     else ret tt
   else ret tt) ;;
  set_prev_state current_state.

(** [try: ... except Exception as exc: log.warning(...)]. *)
Definition try_except (dry_run : bool) (e : env) : M unit :=
  fun s =>
    match try_body dry_run e s with
    | (Ok _, s') => (Ok tt, s')
    | (Raise msg, s') => emit (LogWarning ("Poll error (will retry): " +:+ msg)) s'
    end.

(** [await asyncio.sleep(delay)]: a number of any sign is accepted (a
    delay that is not positive returns at once); anything else is a
    [TypeError]. *)
Definition asyncio_sleep (delay : yaml) : M unit :=
  match delay with
  | YInt _ | YFloat _ | YBool _ => emit (Sleep delay)
  | _ => raise "TypeError"
  end.

Definition iteration (dry_run : bool) (interval : yaml) (e : env) : M unit :=
  try_except dry_run e ;;
  asyncio_sleep interval.

(** *** The loop and its start *)

Inductive outcome :=
| Exited (code : Z)
| Crashed (msg : string) (s : loop_state)
| Running (s : loop_state).

(** [while True] over the iterations the outside has answered so far. *)
Fixpoint while_true (dry_run : bool) (interval : yaml) (es : list env)
    (s : loop_state) : outcome :=
  match es with
  | [] => Running s
  | e :: es' =>
      match iteration dry_run interval e s with
      | (Ok _, s') => while_true dry_run interval es' s'
      | (Raise msg, s') => Crashed msg s'
      end
  end.

(** [cfg.get("polling_interval_seconds", 30)]. *)
Definition get_interval (cfg : gmap string yaml) : yaml :=
  default (YInt 30) (cfg !! "polling_interval_seconds").

(** [poll_loop]: the interval is read, the account's devices are listed
    ([n_devices] of them; the login itself is taken to succeed), the
    process exits with code 1 when there is none, and the loop starts on
    the chosen door, whose answers are the [env]s. *)
Definition poll_loop (cfg : gmap string yaml) (n_devices : nat)
    (dry_run : bool) (es : list env) : outcome :=
  let interval := get_interval cfg in
  if Nat.eqb n_devices 0 then Exited 1
  else while_true dry_run interval es initial.

(** *** Reading a trace *)

Definition state_of (o : outcome) : loop_state :=
  match o with
  | Exited _ => initial
  | Crashed _ s => s
  | Running s => s
  end.

(** The events emitted: the calls of [append_row], oldest first. *)
Fixpoint emitted (t : list effect) : list call :=
  match t with
  | [] => []
  | AppendRowCall c :: t' => c :: emitted t'
  | _ :: t' => emitted t'
  end.

(** The rows the spreadsheet holds. *)
Fixpoint recorded (t : list effect) : list (list string) :=
  match t with
  | [] => []
  | SheetAppendRow row :: t' => row :: recorded t'
  | _ :: t' => recorded t'
  end.

Fixpoint slept (t : list effect) : list yaml :=
  match t with
  | [] => []
  | Sleep d :: t' => d :: slept t'
  | _ :: t' => slept t'
  end.

Fixpoint printed (t : list effect) : list string :=
  match t with
  | [] => []
  | Print line :: t' => line :: printed t'
  | _ :: t' => printed t'
  end.

Fixpoint warnings (t : list effect) : list string :=
  match t with
  | [] => []
  | LogWarning msg :: t' => msg :: warnings t'
  | _ :: t' => warnings t'
  end.

(** The rows the spreadsheet refused. *)
Fixpoint sheet_failures (t : list effect) : list (list string) :=
  match t with
  | [] => []
  | SheetAppendRowRaised row :: t' => row :: sheet_failures t'
  | _ :: t' => sheet_failures t'
  end.


Definition answered (e : env) : bool :=
  match door e with
  | PollRaises _ => false
  | PollReturns _ => true
  end.

(** The loop's variables and effects after the iterations [es], for an
    integer interval [n]. *)
Definition run (dry_run : bool) (n : Z) (es : list env) (s : loop_state)
    : loop_state :=
  state_of (while_true dry_run (YInt n) es s).


(** The poll is a transition: [current_state != prev_state and prev_state
    is not None]. *)
Definition transition (current_state : option string) (s : loop_state)
    : bool :=
  differs current_state (prev_state s) && is_not_none (prev_state s).

(** Shape of a row: timestamp, kind, duration text, notes. *)
Definition row_shape (row : list string) : bool :=
  match row with
  | [ts; kind; dur; _] =>
      timestamp_shape ts
      && (String.eqb kind "OPEN" || String.eqb kind "CLOSE")
      && (String.eqb dur "" || one_decimal_shape dur)
  | _ => false
  end.

End Tracker.

(** ** Before the loop: configuration, sheet, session and door *)

Module Startup.

Import Tracker.

(** A call of the logger: level, format string and arguments, as the
    call passes them. *)
Inductive level := INFO | WARNING | ERROR.

Inductive arg :=
| Str (s : string)
| Opt (o : option string)
| Val (v : yaml)
| Flag (b : bool).

Record log_record := mk_log {
  lvl : level;
  fmt : string;
  args : list arg
}.

(** *** Subscripts *)

(** [cfg[key]] on the configuration mapping. *)
Definition cfg_getitem (cfg : gmap string yaml) (key : string) : result yaml :=
  match cfg !! key with
  | Some v => Ok v
  | None => Raise "KeyError"
  end.

Fixpoint assoc (key : string) (entries : list (string * yaml)) : option yaml :=
  match entries with
  | [] => None
  | (k, v) :: rest => if String.eqb k key then Some v else assoc key rest
  end.

(** [v[key]] on a value of the document: a mapping is looked up, anything
    else cannot be subscripted by a string. *)
Definition getitem (v : yaml) (key : string) : result yaml :=
  match v with
  | YMap entries =>
      match assoc key entries with
      | Some x => Ok x
      | None => Raise "KeyError"
      end
  | _ => Raise "TypeError"
  end.

(** [cfg[section][key]]. *)
Definition getitem2 (cfg : gmap string yaml) (section key : string)
    : result yaml :=
  match cfg_getitem cfg section with
  | Ok v => getitem v key
  | Raise msg => Raise msg
  end.

(** *** [load_config] *)

(** The files that can be opened, each with the mapping it parses to.
    [None] is [sys.exit(1)] after the error has been logged. *)
Definition load_config (files : gmap string (gmap string yaml)) (path : string)
    : option (gmap string yaml) * list log_record :=
  match files !! path with
  | Some cfg => (Some cfg, [])
  | None =>
      (None,
       [mk_log ERROR
          "Config file not found: %s — copy config.yaml.example to config.yaml and fill it in."
          [Str path]])
  end.

(** *** [get_sheet] *)

(** The three calls into the spreadsheet client, each of which returns
    or raises (with the message given). *)
Record gspread := mk_gspread {
  service_account : yaml -> option string;
  open_by_key : yaml -> option string;
  worksheet : yaml -> option string
}.

Definition call_client (answer : option string) : result unit :=
  match answer with
  | None => Ok tt
  | Some msg => Raise msg
  end.

Definition get_sheet (cfg : gmap string yaml) (gs : gspread) : result unit :=
  match getitem2 cfg "google_sheets" "credentials_file" with
  | Raise msg => Raise msg
  | Ok credentials_file =>
      match call_client (service_account gs credentials_file) with
      | Raise msg => Raise msg
      | Ok _ =>
          match getitem2 cfg "google_sheets" "spreadsheet_id" with
          | Raise msg => Raise msg
          | Ok spreadsheet_id =>
              match call_client (open_by_key gs spreadsheet_id) with
              | Raise msg => Raise msg
              | Ok _ =>
                  match getitem2 cfg "google_sheets" "worksheet_name" with
                  | Raise msg => Raise msg
                  | Ok worksheet_name =>
                      call_client (worksheet gs worksheet_name)
                  end
              end
          end
      end
  end.

(** *** The door *)

Record device := mk_device {
  name : string;
  device_type : option string;
  state : option string;
  device_id : string
}.

(** [s.lower()] on ASCII text. *)
Definition lower_char (c : ascii) : ascii :=
  let n := N_of_ascii c in
  if (65 <=? n)%N && (n <=? 90)%N then ascii_of_N (n + 32) else c.

Fixpoint lower (s : string) : string :=
  match s with
  | "" => ""
  | String c rest => String (lower_char c) (lower rest)
  end.

(** [needle in hay]. *)
Fixpoint contains (needle hay : string) : bool :=
  String.prefix needle hay
  || match hay with
     | "" => false
     | String _ rest => contains needle rest
     end.

(** ["door" in (dev.device_type or "").lower()]. *)
Definition is_door_type (t : option string) : bool :=
  contains "door" (lower (default "" t)).

Definition found (dev : device) : log_record :=
  mk_log INFO "Found device: %s  type=%s  state=%s"
    [Str (name dev); Opt (device_type dev); Opt (state dev)].

(** The [for] loop over [devices.items()]: every device is logged, and
    [door] is set once, to the first device of a door type. *)
Fixpoint find_door (devices : list (string * device)) (door : option device)
    : option device * list log_record :=
  match devices with
  | [] => (door, [])
  | (_, dev) :: rest =>
      let door' :=
        if negb (is_not_none door) && is_door_type (device_type dev)
        then Some dev else door in
      let '(r, logs) := find_door rest door' in
      (r, found dev :: logs)
  end.

Inductive selection :=
| NoDevice (logs : list log_record)
| Door (dev : device) (logs : list log_record).

Definition monitoring (dev : device) : log_record :=
  mk_log INFO "Monitoring: %s (id=%s)" [Str (name dev); Str (device_id dev)].

Definition fallback (dev : device) : log_record :=
  mk_log WARNING "No door-type device detected — using first device: %s"
    [Str (name dev)].

(** Lines 88 to 105 of [poll_loop], on the devices of the account in the
    order the mapping lists them. *)
Definition select_door (devices : list (string * device)) : selection :=
  match devices with
  | [] => NoDevice [mk_log ERROR "No MyQ devices found. Check credentials." []]
  | (_, first) :: _ =>
      let '(door, logs) := find_door devices None in
      match door with
      | Some dev => Door dev (logs ++ [monitoring dev])
      | None => Door first (logs ++ [fallback first; monitoring first])
      end
  end.

(** *** [poll_loop] with its session, and [main] *)

(** What [pymyq.login] does with the credentials. *)
Inductive login_result :=
| LoginRaises (msg : string)
| LoggedIn (devices : list (string * device)).

Inductive main_result :=
| SysExit (code : Z) (logs : list log_record)
| Uncaught (msg : string) (logs : list log_record)
| Loop (logs : list log_record) (o : outcome).

(** [poll_loop] from its first line: the interval, the credentials, the
    login, the choice of the door, and then the loop of [Tracker]. *)
Definition poll_loop_session (cfg : gmap string yaml)
    (login : yaml -> yaml -> login_result) (dry_run : bool) (es : list env)
    : main_result :=
  let interval := get_interval cfg in
  let logs :=
    [mk_log INFO "Starting poll loop (interval=%ds, dry_run=%s)"
       [Val interval; Flag dry_run]] in
  match getitem2 cfg "myq" "email" with
  | Raise msg => Uncaught msg logs
  | Ok email =>
      match getitem2 cfg "myq" "password" with
      | Raise msg => Uncaught msg logs
      | Ok password =>
          match login email password with
          | LoginRaises msg => Uncaught msg logs
          | LoggedIn devices =>
              match select_door devices with
              | NoDevice logs' => SysExit 1 (logs ++ logs')
              | Door _ logs' =>
                  Loop (logs ++ logs') (while_true dry_run interval es initial)
              end
          end
      end
  end.

Definition prepend (logs : list log_record) (r : main_result) : main_result :=
  match r with
  | SysExit code logs' => SysExit code (logs ++ logs')
  | Uncaught msg logs' => Uncaught msg (logs ++ logs')
  | Loop logs' o => Loop (logs ++ logs') o
  end.

(** [main], from the parsed command line. *)
Definition main (dry_run : bool) (config : string)
    (files : gmap string (gmap string yaml)) (gs : gspread)
    (login : yaml -> yaml -> login_result) (es : list env) : main_result :=
  match load_config files config with
  | (None, logs) => SysExit 1 logs
  | (Some cfg, _) =>
      if dry_run then poll_loop_session cfg login dry_run es
      else
        let connecting := mk_log INFO "Connecting to Google Sheets..." [] in
        match get_sheet cfg gs with
        | Raise msg => Uncaught msg [connecting]
        | Ok _ =>
            match getitem2 cfg "google_sheets" "spreadsheet_id" with
            | Raise msg => Uncaught msg [connecting]
            | Ok spreadsheet_id =>
                prepend [connecting;
                         mk_log INFO "Sheet ready: %s" [Val spreadsheet_id]]
                  (poll_loop_session cfg login dry_run es)
            end
        end
  end.

End Startup.

Import Fmt Datetime Tracker.

(** ** Sample inputs *)

(** [s] seconds after midnight on 7 March 2024. *)
Definition at_sec (s : Z) : datetime :=
  mk_datetime 2024 3 7 (s / 3600) (s / 60 mod 60) (s mod 60) 0.

(** The door answers [state] and the sheet accepts rows. *)
Definition ok (state : string) (t : Z) : env :=
  mk_env (PollReturns (Some state)) (at_sec t) None.

(** The door answers [state] and the sheet refuses rows. *)
Definition bad (state : string) (t : Z) : env :=
  mk_env (PollReturns (Some state)) (at_sec t) (Some "APIError").

(** The device answers without a state ([door.state] is [None]). *)
Definition stateless (t : Z) : env :=
  mk_env (PollReturns None) (at_sec t) None.

(** The device query fails. *)
Definition down (t : Z) : env :=
  mk_env (PollRaises "timeout") (at_sec t) None.

(** A failed device query, from its message, clock and sheet answer. *)
Definition failed_poll (x : string * datetime * option string) : env :=
  mk_env (PollRaises x.1.1) x.1.2 x.2.

(** ** Notions used by the statements *)

(** What [append_row] and the handler of the loop leave in the trace for
    one event. *)
Definition sink_effects (dry_run : bool) (sheet : option string) (c : call)
    : list effect :=
  if dry_run then [AppendRowCall c; Print (dry_run_line c)]
  else match sheet with
       | None => [AppendRowCall c; SheetAppendRow (row_of c);
                  LogInfo (logged_line c)]
       | Some msg => [AppendRowCall c; SheetAppendRowRaised (row_of c);
                      LogWarning ("Poll error (will retry): " +:+ msg)]
       end.

(** The sheet raises for this event. *)
Definition sink_raises (dry_run : bool) (sheet : option string) : bool :=
  negb dry_run && is_not_none sheet.

(** Two states with the same variables, events, rows and printed lines. *)
Definition same_outputs (a b : loop_state) : Prop :=
  prev_state a = prev_state b /\ last_open_time a = last_open_time b
  /\ emitted (trace a) = emitted (trace b)
  /\ recorded (trace a) = recorded (trace b)
  /\ printed (trace a) = printed (trace b).

(** The duration the loop computes for a CLOSE event at [now]. *)
Definition close_duration (now : datetime) (last : option datetime) : option Q :=
  match last with
  | Some t0 => Some (sub_total_seconds now t0 / 60)%Q
  | None => None
  end.

(** The kind of event a poll of "open" or "closed" emits. *)
Definition kind_of (current_state : string) : string :=
  if String.eqb current_state "open" then "OPEN" else "CLOSE".

(** A field printed in [w] digits: that many characters, all digits. *)
Definition field_ok (w : nat) (s : string) : bool :=
  Nat.eqb (String.length s) w && all_digits s.

(** The fields of an event as [append_row] writes them: a timestamp of
    the fixed shape, the kind OPEN or CLOSE, a duration text with one
    decimal place when there is a duration and empty when there is none,
    and the notes (always empty in this loop). *)
Definition event_fields_ok (c : call) : Prop :=
  timestamp_shape (timestamp c) = true
  /\ (event c = "OPEN" \/ event c = "CLOSE")
  /\ match duration_min c with
     | Some _ => one_decimal_shape (dur_str_of (duration_min c)) = true
     | None => dur_str_of (duration_min c) = ""
     end
  /\ notes c = "".

Definition effect_ok (e : effect) : Prop :=
  match e with
  | AppendRowCall c => event_fields_ok c
  | Print line => exists c, event_fields_ok c /\ line = dry_run_line c
  | SheetAppendRow row | SheetAppendRowRaised row =>
      exists c, event_fields_ok c /\ row = row_of c
  | _ => True
  end.

(** The rows handed to [sheet.append_row], accepted or refused, oldest
    first. *)
Fixpoint attempted (t : list effect) : list (list string) :=
  match t with
  | [] => []
  | SheetAppendRow row :: t' => row :: attempted t'
  | SheetAppendRowRaised row :: t' => row :: attempted t'
  | _ :: t' => attempted t'
  end.

(** The messages logged at level INFO. *)
Fixpoint infos (t : list effect) : list string :=
  match t with
  | [] => []
  | LogInfo msg :: t' => msg :: infos t'
  | _ :: t' => infos t'
  end.

(** The same iteration with another answer of the sheet. *)
Definition with_sheet (f : env -> option string) (e : env) : env :=
  mk_env (door e) (clock e) (f e).


(** A duration, when there is one, is not negative. *)
Definition duration_not_negative (c : call) : Prop :=
  match duration_min c with
  | Some q => (0 <= q)%Q
  | None => True
  end.

(** The clock never goes back from one answered poll to the next
    ([last] is the reading of the answered poll before [es], if any). *)
Fixpoint clock_ordered (last : option datetime) (es : list env) : Prop :=
  match es with
  | [] => True
  | e :: es' =>
      if answered e then
        match last with
        | Some t => instant t <= instant (clock e)
        | None => True
        end /\ clock_ordered (Some (clock e)) es'
      else clock_ordered last es'
  end.

Definition clock_never_goes_back (es : list env) : Prop :=
  clock_ordered None es.




(** A configured interval that [asyncio.sleep] accepts. *)
Definition is_number (v : yaml) : bool :=
  match v with
  | YInt _ | YFloat _ | YBool _ => true
  | _ => false
  end.

(** Reading back a text printed with one decimal place. *)
Definition digit_value (c : ascii) : Z := Z.of_N (N_of_ascii c) - 48.

Fixpoint digits_value (acc : Z) (s : string) : Z :=
  match s with
  | "" => acc
  | String c rest => digits_value (acc * 10 + digit_value c) rest
  end.

(** The number of tenths written by digits, a point and one digit. *)
Fixpoint read_tenths (acc : Z) (s : string) : option Z :=
  match s with
  | "" => None
  | String c rest =>
      if is_digit c then read_tenths (acc * 10 + digit_value c) rest
      else if Ascii.eqb c "."%char then
        match rest with
        | String d "" => if is_digit d then Some (acc * 10 + digit_value d)
                         else None
        | _ => None
        end
      else None
  end.

Definition parse_1f (s : string) : option Q :=
  match s with
  | "" => None
  | String c rest =>
      if Ascii.eqb c "-"%char
      then option_map (fun t => (- t) # 10) (read_tenths 0 rest)
      else option_map (fun t => t # 10) (read_tenths 0 s)
  end.

(** The device of a listing is not of a door type. *)
Definition not_a_door (x : string * Startup.device) : Prop :=
  Startup.is_door_type (Startup.device_type x.2) = false.

(** The "Found device" records of a listing, in its order. *)
Definition found_all (devices : list (string * Startup.device))
    : list Startup.log_record :=
  map (fun x => Startup.found x.2) devices.


(** The records logged while the door is chosen. *)
Definition selection_logs (sel : Startup.selection) : list Startup.log_record :=
  match sel with
  | Startup.NoDevice logs => logs
  | Startup.Door _ logs => logs
  end.

(** ** Examples *)

Example strftime_example :
  strftime (mk_datetime 2024 3 7 9 5 0 123456) = "2024-03-07 09:05:00 UTC".
Proof. vm_compute. reflexivity. Qed.

Example format_1f_examples :
  format_1f (9 # 1) = "9.0" /\ format_1f (1 # 4) = "0.2"
  /\ format_1f (3 # 4) = "0.8" /\ format_1f (-1 # 100) = "-0.0"
  /\ format_1f (1234567 # 1000) = "1234.6".
Proof. vm_compute. repeat split; reflexivity. Qed.

(** CLOSED, CLOSED, OPEN, CLOSED at 0, 30, 60 and 600 seconds: an OPEN row
    at 60 and a CLOSE row of 9.0 minutes at 600. *)
Example scenario_rows :
  recorded (trace (run false 30
    [ok "closed" 0; ok "closed" 30; ok "open" 60; ok "closed" 600] initial))
  = [ ["2024-03-07 00:01:00 UTC"; "OPEN"; ""; ""];
      ["2024-03-07 00:10:00 UTC"; "CLOSE"; "9.0"; ""] ].
Proof. vm_compute. reflexivity. Qed.

Example scenario_dry_run :
  let t := trace (run true 30
    [ok "closed" 0; ok "closed" 30; ok "open" 60; ok "closed" 600] initial) in
  recorded t = []
  /\ printed t
     = ["[DRY RUN]  2024-03-07 00:01:00 UTC  OPEN    dur=       min  notes=";
        "[DRY RUN]  2024-03-07 00:10:00 UTC  CLOSE   dur=   9.0 min  notes="].
Proof. vm_compute. split; reflexivity. Qed.

(** A poll without a state between an OPEN and a CLOSE event: the
    baseline is lost at 90 seconds and set anew at 100, and the CLOSE event
    at 120 seconds still carries the minute since the door opened. *)
Example scenario_stateless_poll :
  map (fun c => (event c, dur_str_of (duration_min c)))
    (emitted (trace (run true 30
       [ok "closed" 0; ok "open" 60; stateless 90; ok "closing" 100;
        ok "closed" 120] initial)))
  = [("OPEN", ""); ("CLOSE", "1.0")].
Proof. vm_compute. reflexivity. Qed.

(** ** Traces *)

Lemma emitted_app t1 t2 : emitted (t1 ++ t2) = emitted t1 ++ emitted t2.
Proof.
  induction t1 as [|e t1 IH]; [reflexivity|].
  destruct e; simpl; rewrite IH; reflexivity.
Qed.

Lemma recorded_app t1 t2 : recorded (t1 ++ t2) = recorded t1 ++ recorded t2.
Proof.
  induction t1 as [|e t1 IH]; [reflexivity|].
  destruct e; simpl; rewrite IH; reflexivity.
Qed.

Lemma slept_app t1 t2 : slept (t1 ++ t2) = slept t1 ++ slept t2.
Proof.
  induction t1 as [|e t1 IH]; [reflexivity|].
  destruct e; simpl; rewrite IH; reflexivity.
Qed.

Lemma printed_app t1 t2 : printed (t1 ++ t2) = printed t1 ++ printed t2.
Proof.
  induction t1 as [|e t1 IH]; [reflexivity|].
  destruct e; simpl; rewrite IH; reflexivity.
Qed.

Lemma warnings_app t1 t2 : warnings (t1 ++ t2) = warnings t1 ++ warnings t2.
Proof.
  induction t1 as [|e t1 IH]; [reflexivity|].
  destruct e; simpl; rewrite IH; reflexivity.
Qed.

Lemma sheet_failures_app t1 t2 :
  sheet_failures (t1 ++ t2) = sheet_failures t1 ++ sheet_failures t2.
Proof.
  induction t1 as [|e t1 IH]; [reflexivity|].
  destruct e; simpl; rewrite IH; reflexivity.
Qed.



(** ** One iteration, case by case *)

Ltac unfold_iteration :=
  unfold run, while_true, iteration, try_except, try_body, append_row,
    sheet_append_row, door_update, asyncio_sleep, bind, ret, raise, emit,
    get_prev_state, get_last_open_time, set_prev_state, set_last_open_time,
    state_of; cbn [door clock sheet_error prev_state last_open_time trace].

Lemma run_nil d n s : run d n [] s = s.
Proof. reflexivity. Qed.

Lemma step_poll_raises d n msg now sh s :
  run d n [mk_env (PollRaises msg) now sh] s
  = mk_state (prev_state s) (last_open_time s)
      (trace s ++ [LogWarning ("Poll error (will retry): " +:+ msg);
                   Sleep (YInt n)]).
Proof. unfold_iteration. rewrite <- app_assoc. reflexivity. Qed.

(** A polled state is "open", or "closed", or neither (another string, or
    no state at all). *)
Lemma state_cases (cur : option string) :
  {cur = Some "open"} + {cur = Some "closed"}
  + {cur <> Some "open" /\ cur <> Some "closed"}.
Proof.
  destruct cur as [c|]; [|right; split; discriminate].
  destruct (String.eqb_spec c "open") as [->|Ho]; [left; left; reflexivity|].
  destruct (String.eqb_spec c "closed") as [->|Hc]; [left; right; reflexivity|].
  right. split; congruence.
Qed.

Lemma equals_false cur literal :
  cur <> Some literal -> equals cur literal = false.
Proof.
  destruct cur as [c|]; [|reflexivity]. intros H. simpl.
  apply String.eqb_neq. congruence.
Qed.

Lemma step_silent d n cur now sh s :
  transition cur s = false
  \/ (cur <> Some "open" /\ cur <> Some "closed") ->
  run d n [mk_env (PollReturns cur) now sh] s
  = mk_state cur (last_open_time s) (trace s ++ [Sleep (YInt n)]).
Proof.
  unfold transition. intros H. unfold_iteration.
  destruct (differs cur (prev_state s) && is_not_none (prev_state s)).
  - destruct H as [H|[H1 H2]]; [discriminate|].
    rewrite (equals_false _ _ H1), (equals_false _ _ H2). reflexivity.
  - reflexivity.
Qed.

Lemma step_open d n now sh s :
  transition (Some "open") s = true ->
  run d n [mk_env (PollReturns (Some "open")) now sh] s
  = mk_state (if sink_raises d sh then prev_state s else Some "open")
      (Some now)
      (trace s ++ sink_effects d sh (mk_call (strftime now) "OPEN" None "")
         ++ [Sleep (YInt n)]).
Proof.
  unfold transition. intros H. unfold_iteration. rewrite H.
  unfold sink_effects, sink_raises.
  destruct d, sh; cbn; rewrite <- ?app_assoc; reflexivity.
Qed.

Lemma step_closed d n now sh s :
  transition (Some "closed") s = true ->
  let duration_min :=
    match last_open_time s with
    | Some t0 => Some (sub_total_seconds now t0 / 60)%Q
    | None => None
    end in
  run d n [mk_env (PollReturns (Some "closed")) now sh] s
  = mk_state (if sink_raises d sh then prev_state s else Some "closed")
      (if sink_raises d sh then last_open_time s else None)
      (trace s
         ++ sink_effects d sh (mk_call (strftime now) "CLOSE" duration_min "")
         ++ [Sleep (YInt n)]).
Proof.
  unfold transition. intros H. unfold_iteration. rewrite H.
  unfold sink_effects, sink_raises.
  destruct d, sh; cbn; rewrite <- ?app_assoc; reflexivity.
Qed.

Lemma emitted_sink_effects d sh c : emitted (sink_effects d sh c) = [c].
Proof. unfold sink_effects. destruct d, sh; reflexivity. Qed.

(** ** Whole runs *)

Lemma iteration_returns d n e s :
  exists s', iteration d (YInt n) e s = (Ok tt, s').
Proof.
  unfold iteration, try_except, try_body, append_row, sheet_append_row,
    door_update, asyncio_sleep, bind, ret, raise, emit, get_prev_state,
    get_last_open_time, set_prev_state, set_last_open_time.
  destruct (door e) as [msg|cur]; [eauto|].
  destruct (differs cur (prev_state s) && is_not_none (prev_state s)); [|eauto].
  destruct (equals cur "open").
  { destruct d; [eauto|]. destruct (sheet_error e); eauto. }
  destruct (equals cur "closed"); [|eauto].
  destruct d; [eauto|]. destruct (sheet_error e); eauto.
Qed.

Lemma run_cons d n e es s : run d n (e :: es) s = run d n es (run d n [e] s).
Proof.
  unfold run. simpl.
  destruct (iteration_returns d n e s) as [s' ->]. reflexivity.
Qed.

Lemma run_app d n es1 es2 s :
  run d n (es1 ++ es2) s = run d n es2 (run d n es1 s).
Proof.
  revert s. induction es1 as [|e es1 IH]; intros s; [reflexivity|].
  simpl. rewrite run_cons, IH, <- run_cons. reflexivity.
Qed.

Lemma while_true_running d n es s :
  while_true d (YInt n) es s = Running (run d n es s).
Proof.
  revert s. induction es as [|e es IH]; intros s; [reflexivity|].
  rewrite run_cons. unfold run at 2. simpl.
  destruct (iteration_returns d n e s) as [s' ->]. simpl. apply IH.
Qed.


Lemma transition_true cur p s :
  prev_state s = Some p -> p <> cur -> transition (Some cur) s = true.
Proof.
  unfold transition, differs. intros -> H.
  destruct (String.eqb_spec cur p); [congruence|reflexivity].
Qed.


Lemma transition_initial cur s : prev_state s = None -> transition cur s = false.
Proof. unfold transition. intros ->. apply andb_false_r. Qed.

(** A run of failed device queries changes neither variable and emits
    nothing. *)
Lemma run_failed_polls d n fails s :
  prev_state (run d n (map failed_poll fails) s) = prev_state s
  /\ last_open_time (run d n (map failed_poll fails) s) = last_open_time s
  /\ emitted (trace (run d n (map failed_poll fails) s)) = emitted (trace s)
  /\ recorded (trace (run d n (map failed_poll fails) s)) = recorded (trace s)
  /\ printed (trace (run d n (map failed_poll fails) s)) = printed (trace s).
Proof.
  revert s. induction fails as [|[[msg now] sh] fails IH]; intros s.
  - simpl. rewrite run_nil. auto.
  - cbn [map]. rewrite run_cons. unfold failed_poll at 2 4 6 8 10.
    cbn [fst snd]. rewrite step_poll_raises.
    destruct (IH (mk_state (prev_state s) (last_open_time s)
      (trace s ++ [LogWarning ("Poll error (will retry): " +:+ msg);
                   Sleep (YInt n)]))) as (H1 & H2 & H3 & H4 & H5).
    rewrite H1, H2, H3, H4, H5. cbn [prev_state last_open_time trace].
    rewrite emitted_app, recorded_app, printed_app. simpl.
    rewrite !app_nil_r. auto.
Qed.

(** C5. Whatever state the first successful poll returns, and however
    many failed polls come before it, the first observation emits no
    event: it only stores that state in [prev_state]. *)
Theorem first_observation_emits_nothing :
  forall d n (fails : list (string * datetime * option string)) cur now sh,
    let es := map failed_poll fails ++ [mk_env (PollReturns cur) now sh] in
    let s := run d n es initial in
    while_true d (YInt n) es initial = Running s
    /\ emitted (trace s) = [] /\ recorded (trace s) = []
    /\ printed (trace s) = []
    /\ prev_state s = cur /\ last_open_time s = None.
Proof.
  intros d n fails cur now sh es s. split; [apply while_true_running|].
  subst s es. rewrite run_app.
  destruct (run_failed_polls d n fails initial) as (H1 & H2 & H3 & H4 & H5).
  rewrite step_silent by (left; apply transition_initial; exact H1).
  cbn [prev_state last_open_time trace].
  rewrite emitted_app, recorded_app, printed_app, H2, H3, H4, H5. simpl.
  repeat split; reflexivity.
Qed.

(** One iteration reads the trace nowhere: it only appends to it. *)
Lemma run_frame d n e p l t :
  run d n [e] (mk_state p l t)
  = mk_state (prev_state (run d n [e] (mk_state p l [])))
      (last_open_time (run d n [e] (mk_state p l [])))
      (t ++ trace (run d n [e] (mk_state p l []))).
Proof.
  destruct e as [[msg|cur] now sh].
  - rewrite !step_poll_raises. reflexivity.
  - destruct (transition cur (mk_state p l t)) eqn:T.
    + assert (T0 : transition cur (mk_state p l []) = true) by exact T.
      destruct (state_cases cur) as [[->| ->]|[Ho Hc]].
      { rewrite !step_open by assumption. reflexivity. }
      { rewrite !step_closed by assumption. reflexivity. }
      rewrite !step_silent
        by (right; split; assumption).
      reflexivity.
    + assert (T0 : transition cur (mk_state p l []) = false) by exact T.
      rewrite !step_silent by (left; assumption). reflexivity.
Qed.

Lemma same_outputs_step d n e a b :
  same_outputs a b -> same_outputs (run d n [e] a) (run d n [e] b).
Proof.
  destruct a as [pa la ta], b as [pb lb tb]. unfold same_outputs.
  cbn [prev_state last_open_time trace]. intros (-> & -> & H3 & H4 & H5).
  rewrite (run_frame d n e pb lb ta), (run_frame d n e pb lb tb).
  cbn [prev_state last_open_time trace].
  rewrite !emitted_app, !recorded_app, !printed_app, H3, H4, H5. auto.
Qed.

Lemma same_outputs_poll_raises d n msg now sh s :
  same_outputs (run d n [mk_env (PollRaises msg) now sh] s) s.
Proof.
  rewrite step_poll_raises. unfold same_outputs.
  cbn [prev_state last_open_time trace].
  rewrite emitted_app, recorded_app, printed_app. simpl.
  rewrite !app_nil_r. auto.
Qed.

Lemma same_outputs_trans a b c :
  same_outputs a b -> same_outputs b c -> same_outputs a c.
Proof.
  unfold same_outputs. intros (?&?&?&?&?) (?&?&?&?&?).
  repeat split; congruence.
Qed.

Lemma same_outputs_without_failed_polls d n es a b :
  same_outputs a b ->
  same_outputs (run d n es a) (run d n (List.filter answered es) b).
Proof.
  revert a b. induction es as [|e es IH]; intros a b H; [exact H|].
  rewrite run_cons. cbn [List.filter].
  destruct e as [[msg|cur] now sh]; unfold answered at 1; cbn [door].
  - apply IH. eapply same_outputs_trans; [|exact H].
    apply same_outputs_poll_raises.
  - rewrite (run_cons d n _ (List.filter answered es) b).
    apply IH, same_outputs_step, H.
Qed.

(** C7. A failed device query leaves [prev_state] and [last_open_time] as
    they were and emits no event (only a warning is logged before the
    sleep); and detection goes on as if the failed polls had never been
    made: a run and the same run without its failed polls end with the
    same variables, events, rows and printed lines. *)
Theorem poll_failure_leaves_detector_unchanged :
  forall d n msg now sh s,
    let e := mk_env (PollRaises msg) now sh in
    while_true d (YInt n) [e] s = Running (run d n [e] s)
    /\ prev_state (run d n [e] s) = prev_state s
    /\ last_open_time (run d n [e] s) = last_open_time s
    /\ trace (run d n [e] s)
       = trace s ++ [LogWarning ("Poll error (will retry): " +:+ msg);
                     Sleep (YInt n)]
    /\ emitted (trace (run d n [e] s)) = emitted (trace s)
    /\ (forall next, same_outputs (run d n [e; next] s) (run d n [next] s))
    /\ (forall es,
          same_outputs (run d n es s) (run d n (List.filter answered es) s)).
Proof.
  intros d n msg now sh s e. subst e.
  split; [apply while_true_running|].
  rewrite step_poll_raises. cbn [prev_state last_open_time trace].
  rewrite emitted_app. simpl. rewrite app_nil_r.
  do 4 (split; [reflexivity|]). split.
  - intros e'. rewrite run_cons. apply same_outputs_step.
    apply same_outputs_poll_raises.
  - intros es. apply same_outputs_without_failed_polls.
    unfold same_outputs. auto.
Qed.

Lemma emitted_step_open d n now sh s :
  transition (Some "open") s = true ->
  emitted (trace (run d n [mk_env (PollReturns (Some "open")) now sh] s))
  = emitted (trace s) ++ [mk_call (strftime now) "OPEN" None ""].
Proof.
  intros T. rewrite step_open by exact T. cbn [trace].
  rewrite !emitted_app, emitted_sink_effects. simpl. reflexivity.
Qed.

Lemma emitted_step_closed d n now sh s :
  transition (Some "closed") s = true ->
  emitted (trace (run d n [mk_env (PollReturns (Some "closed")) now sh] s))
  = emitted (trace s)
    ++ [mk_call (strftime now) "CLOSE"
          (close_duration now (last_open_time s)) ""].
Proof.
  intros T. rewrite step_closed by exact T. cbn [trace].
  rewrite !emitted_app, emitted_sink_effects. simpl. reflexivity.
Qed.

Lemma emitted_step_silent d n cur now sh s :
  transition cur s = false
  \/ (cur <> Some "open" /\ cur <> Some "closed") ->
  emitted (trace (run d n [mk_env (PollReturns cur) now sh] s))
  = emitted (trace s).
Proof.
  intros H. rewrite step_silent by exact H. cbn [trace].
  rewrite emitted_app. simpl. apply app_nil_r.
Qed.

(** C8. A poll that returns "closed" and is a transition, made while
    [last_open_time] is [None], emits a CLOSE event whose duration is
    [None]; its row carries the empty string as duration. *)
Theorem close_without_open_has_no_duration :
  forall d n s p now sh,
    prev_state s = Some p -> p <> "closed" -> last_open_time s = None ->
    let c := mk_call (strftime now) "CLOSE" None "" in
    let s' := run d n [mk_env (PollReturns (Some "closed")) now sh] s in
    emitted (trace s') = emitted (trace s) ++ [c]
    /\ row_of c = [strftime now; "CLOSE"; ""; ""]
    /\ (sink_raises d sh = false ->
        prev_state s' = Some "closed" /\ last_open_time s' = None)
    /\ (d = true -> printed (trace s') = printed (trace s) ++ [dry_run_line c])
    /\ (d = false -> sh = None ->
        recorded (trace s') = recorded (trace s) ++ [row_of c]).
Proof.
  intros d n s p now sh Hp Hne Hl c s'. subst c s'.
  assert (T : transition (Some "closed") s = true) by (eapply transition_true; eauto).
  split.
  { rewrite emitted_step_closed by exact T. rewrite Hl. reflexivity. }
  split; [reflexivity|].
  rewrite step_closed by exact T. rewrite Hl.
  cbn [prev_state last_open_time trace].
  split; [intros ->; split; reflexivity|].
  split.
  - intros ->. rewrite !printed_app. reflexivity.
  - intros -> ->. rewrite !recorded_app. simpl. reflexivity.
Qed.

Lemma close_without_open_witness :
  let s := run false 30 [ok "open" 0] initial in
  let c := mk_call "2024-03-07 00:01:00 UTC" "CLOSE" None "" in
  emitted (trace (run false 30 [ok "closed" 60] s)) = emitted (trace s) ++ [c]
  /\ row_of c = ["2024-03-07 00:01:00 UTC"; "CLOSE"; ""; ""].
Proof.
  intros s c.
  destruct (close_without_open_has_no_duration false 30 s "open" (at_sec 60) None)
    as (H1 & H2 & _); [reflexivity | discriminate | reflexivity |].
  split; [exact H1 | exact H2].
Defined.

(** C10, as the loop has it. A successfully polled string other than
    "open" and "closed" emits no event and is stored in [prev_state]; the
    next poll that returns "open" or "closed" is then a transition and
    emits an OPEN or a CLOSE event. A poll that returns no state ([None])
    emits no event and is stored as well, but [prev_state] is then [None]
    again: the next poll, whatever it returns, emits no event and only
    sets the baseline anew. *)
Theorem intermediate_state_becomes_baseline :
  forall d n s cur now sh,
    cur <> "open" -> cur <> "closed" ->
    let s1 := run d n [mk_env (PollReturns (Some cur)) now sh] s in
    let s0 := run d n [mk_env (PollReturns None) now sh] s in
    emitted (trace s1) = emitted (trace s)
    /\ prev_state s1 = Some cur
    /\ last_open_time s1 = last_open_time s
    /\ (forall now2 sh2,
          emitted (trace (run d n [mk_env (PollReturns (Some "open")) now2 sh2] s1))
          = emitted (trace s1) ++ [mk_call (strftime now2) "OPEN" None ""])
    /\ (forall now2 sh2,
          emitted (trace (run d n [mk_env (PollReturns (Some "closed")) now2 sh2] s1))
          = emitted (trace s1)
            ++ [mk_call (strftime now2) "CLOSE"
                  (close_duration now2 (last_open_time s)) ""])
    /\ emitted (trace s0) = emitted (trace s)
    /\ prev_state s0 = None
    /\ last_open_time s0 = last_open_time s
    /\ (forall next now2 sh2,
          emitted (trace (run d n [mk_env (PollReturns next) now2 sh2] s0))
          = emitted (trace s0)
          /\ prev_state (run d n [mk_env (PollReturns next) now2 sh2] s0)
             = next).
Proof.
  intros d n s cur now sh Ho Hc s1 s0.
  assert (E : s1 = mk_state (Some cur) (last_open_time s)
                     (trace s ++ [Sleep (YInt n)])).
  { subst s1. apply step_silent. right. split; congruence. }
  assert (E0 : s0 = mk_state None (last_open_time s)
                      (trace s ++ [Sleep (YInt n)])).
  { subst s0. apply step_silent. right. split; discriminate. }
  rewrite E, E0. cbn [prev_state last_open_time trace].
  split. { rewrite emitted_app. simpl. apply app_nil_r. }
  do 2 (split; [reflexivity|]).
  split.
  { intros now2 sh2. rewrite emitted_step_open; [reflexivity|].
    eapply transition_true; [reflexivity|exact Ho]. }
  split.
  { intros now2 sh2. rewrite emitted_step_closed; [reflexivity|].
    eapply transition_true; [reflexivity|exact Hc]. }
  split. { rewrite emitted_app. simpl. apply app_nil_r. }
  do 2 (split; [reflexivity|]).
  intros next now2 sh2.
  rewrite step_silent by (left; apply transition_initial; reflexivity).
  cbn [prev_state trace]. split; [|reflexivity].
  rewrite !emitted_app. simpl. rewrite !app_nil_r. reflexivity.
Qed.

Lemma intermediate_state_witness :
  let s := run true 30 [ok "closed" 0] initial in
  let s1 := run true 30 [ok "opening" 30] s in
  emitted (trace s1) = emitted (trace s)
  /\ prev_state s1 = Some "opening"
  /\ emitted (trace (run true 30 [ok "open" 60] s1))
     = emitted (trace s1) ++ [mk_call "2024-03-07 00:01:00 UTC" "OPEN" None ""].
Proof.
  intros s s1.
  destruct (intermediate_state_becomes_baseline true 30 s "opening"
              (at_sec 30) None) as (H1 & H2 & _ & H4 & _);
    [discriminate | discriminate |].
  split; [exact H1|]. split; [exact H2|].
  exact (H4 (at_sec 60) None).
Defined.

(** C10 as stated fails at the state value [None]: the door is seen
    closed, then the device answers without a state, then the door is
    seen open. The second poll stores [None] in [prev_state], and the
    third, although it returns "open", emits no event. *)
Lemma stateless_poll_resets_the_baseline :
  let s1 := run true 30 [ok "closed" 0; stateless 30] initial in
  let s2 := run true 30 [ok "open" 60] s1 in
  ~ (exists c, emitted (trace s2) = emitted (trace s1) ++ [c])
  /\ prev_state s1 = None
  /\ emitted (trace s2) = []
  /\ prev_state s2 = Some "open".
Proof.
  intros s1 s2. split.
  - intros [c H]. vm_compute in H. discriminate H.
  - vm_compute. repeat split; reflexivity.
Qed.

(** ** Durations *)

Lemma run_extends_trace d n es s :
  exists new, trace (run d n es s) = trace s ++ new.
Proof.
  revert s. induction es as [|e es IH]; intros s.
  - exists []. rewrite run_nil, app_nil_r. reflexivity.
  - rewrite run_cons. destruct (IH (run d n [e] s)) as [new2 H2].
    destruct s as [p l t]. rewrite H2, run_frame. cbn [trace].
    eexists. rewrite <- app_assoc. reflexivity.
Qed.

Lemma app_eq_self {A} (l more : list A) : l ++ more = l -> more = [].
Proof.
  intros H. apply (f_equal (@List.length A)) in H.
  rewrite List.length_app in H. destruct more; [reflexivity|].
  simpl in H. lia.
Qed.

(** An iteration that emits nothing leaves [last_open_time] alone. *)
Lemma silent_step_keeps_last_open_time d n e s :
  emitted (trace (run d n [e] s)) = emitted (trace s) ->
  last_open_time (run d n [e] s) = last_open_time s.
Proof.
  destruct e as [[msg|cur] now sh].
  { rewrite step_poll_raises. reflexivity. }
  destruct (transition cur s) eqn:T.
  - destruct (state_cases cur) as [[->| ->]|[Ho Hc]].
    { rewrite emitted_step_open by exact T. intros H.
      apply app_eq_self in H. discriminate. }
    { rewrite emitted_step_closed by exact T. intros H.
      apply app_eq_self in H. discriminate. }
    rewrite step_silent by (right; split; assumption).
    reflexivity.
  - rewrite step_silent by (left; exact T). reflexivity.
Qed.

Lemma silent_run_keeps_last_open_time d n es s :
  emitted (trace (run d n es s)) = emitted (trace s) ->
  last_open_time (run d n es s) = last_open_time s.
Proof.
  revert s. induction es as [|e es IH]; intros s H; [reflexivity|].
  rewrite run_cons in H |- *.
  destruct (run_extends_trace d n es (run d n [e] s)) as [new2 H2].
  destruct (run_extends_trace d n [e] s) as [new1 H1].
  rewrite H2, H1, !emitted_app, <- app_assoc in H.
  apply app_eq_self, app_eq_nil in H. destruct H as [E1 E2].
  rewrite IH.
  - apply silent_step_keeps_last_open_time.
    rewrite H1, emitted_app, E1. apply app_nil_r.
  - rewrite H2, emitted_app, E2. apply app_nil_r.
Qed.

Lemma sub_total_seconds_instant a b :
  sub_total_seconds a b = (inject_Z (instant a - instant b) / inject_Z 1000000)%Q.
Proof.
  unfold sub_total_seconds, instant. f_equal. f_equal. ring.
Qed.

Lemma minutes_of_microseconds (us : Z) :
  (inject_Z us / inject_Z 1000000 / 60 == us # 60000000)%Q.
Proof.
  unfold Qeq, Qdiv, Qmult, Qinv, inject_Z. simpl. lia.
Qed.

Lemma minutes_positive (us : Z) :
  0 < us -> (0 < inject_Z us / inject_Z 1000000 / 60)%Q.
Proof.
  intros H. rewrite minutes_of_microseconds. unfold Qlt. simpl. lia.
Qed.

(** C4. When a poll returning "open" is a transition at [t_open], no
    event is emitted by the iterations that follow, and then a poll
    returning "closed" is a transition at [t_close] ([prev_state] is
    then neither [None] nor "closed"), the CLOSE event carries the
    duration [(t_close - t_open).total_seconds() / 60]: the elapsed
    microseconds over 60,000,000, which is positive when [t_open] is
    before [t_close]. *)
Theorem close_duration_is_elapsed_minutes :
  forall d n s p t_open sh_open mid t_close sh_close,
    prev_state s = Some p -> p <> "open" ->
    let s1 := run d n [mk_env (PollReturns (Some "open")) t_open sh_open] s in
    let s2 := run d n mid s1 in
    emitted (trace s2) = emitted (trace s1) ->
    prev_state s2 <> None ->
    prev_state s2 <> Some "closed" ->
    instant t_open < instant t_close ->
    let s3 := run d n [mk_env (PollReturns (Some "closed")) t_close sh_close] s2 in
    let dur := (sub_total_seconds t_close t_open / 60)%Q in
    emitted (trace s1)
    = emitted (trace s) ++ [mk_call (strftime t_open) "OPEN" None ""]
    /\ emitted (trace s3)
       = emitted (trace s2)
         ++ [mk_call (strftime t_close) "CLOSE" (Some dur) ""]
    /\ (dur == (instant t_close - instant t_open) # 60000000)%Q
    /\ (0 < dur)%Q.
Proof.
  intros d n s p t_open sh_open mid t_close sh_close Hp Hne s1 s2 Hmid Hbase
    Hprev Hlt s3 dur.
  assert (T1 : transition (Some "open") s = true) by (eapply transition_true; eauto).
  assert (L1 : last_open_time s1 = Some t_open).
  { subst s1. rewrite step_open by exact T1. reflexivity. }
  assert (L2 : last_open_time s2 = Some t_open).
  { subst s2. rewrite silent_run_keeps_last_open_time by exact Hmid. exact L1. }
  assert (T3 : transition (Some "closed") s2 = true).
  { destruct (prev_state s2) as [q|] eqn:E; [|congruence].
    eapply transition_true; [exact E|]. congruence. }
  split. { subst s1. apply emitted_step_open, T1. }
  split.
  { subst s3. rewrite emitted_step_closed by exact T3. rewrite L2. reflexivity. }
  subst dur. rewrite sub_total_seconds_instant.
  split; [apply minutes_of_microseconds|apply minutes_positive; lia].
Qed.

Lemma close_duration_witness :
  let s := run false 30 [ok "closed" 0] initial in
  let s2 := run false 30 [ok "open" 60; ok "open" 90; down 120] s in
  let s3 := run false 30 [ok "closed" 600] s2 in
  let dur := (sub_total_seconds (at_sec 600) (at_sec 60) / 60)%Q in
  emitted (trace s3)
  = emitted (trace s2) ++ [mk_call "2024-03-07 00:10:00 UTC" "CLOSE" (Some dur) ""]
  /\ (dur == 9)%Q.
Proof.
  intros s s2 s3 dur.
  destruct (close_duration_is_elapsed_minutes false 30 s "closed" (at_sec 60)
              None [ok "open" 90; down 120] (at_sec 600) None)
    as (_ & H2 & H3 & _);
    [reflexivity | discriminate | reflexivity | discriminate | discriminate
    | vm_compute; reflexivity |].
  split; [exact H2|].
  eapply Qeq_trans; [exact H3|]. vm_compute. reflexivity.
Defined.

(** ** When the sheet refuses a row *)

(** A poll that is a transition to "open" or "closed" emits one event of
    the matching kind, stamped with the time of the poll. *)
Lemma transition_emits d n cur now sh s :
  transition (Some cur) s = true -> cur = "open" \/ cur = "closed" ->
  exists c, emitted (trace (run d n [mk_env (PollReturns (Some cur)) now sh] s))
            = emitted (trace s) ++ [c]
            /\ event c = kind_of cur /\ timestamp c = strftime now.
Proof.
  intros T [->| ->].
  - eexists. rewrite emitted_step_open by exact T. repeat split.
  - eexists. rewrite emitted_step_closed by exact T. repeat split.
Qed.

Lemma sink_raises_durable msg : sink_raises false (Some msg) = true.
Proof. reflexivity. Qed.

(** C1, as the loop has it. When the sheet refuses the row of an event,
    the exception is caught and logged as a warning, no row is stored and
    the loop goes on to the next iteration; but [prev_state] keeps its old
    value, so that a next poll returning the same state is a transition
    again and emits a new event of the same kind, stamped with the later
    time. *)
Theorem sheet_error_is_logged_and_event_is_emitted_again :
  forall n s p cur now msg,
    prev_state s = Some p -> p <> cur -> cur = "open" \/ cur = "closed" ->
    let e := mk_env (PollReturns (Some cur)) now (Some msg) in
    let s1 := run false n [e] s in
    (forall es, while_true false (YInt n) (e :: es) s
                = Running (run false n es s1))
    /\ recorded (trace s1) = recorded (trace s)
    /\ warnings (trace s1)
       = warnings (trace s) ++ ["Poll error (will retry): " +:+ msg]
    /\ prev_state s1 = prev_state s
    /\ (exists c, emitted (trace s1) = emitted (trace s) ++ [c]
                  /\ event c = kind_of cur /\ timestamp c = strftime now)
    /\ (forall now2 sh2,
          exists c2,
            emitted (trace (run false n
                              [mk_env (PollReturns (Some cur)) now2 sh2] s1))
            = emitted (trace s1) ++ [c2]
            /\ event c2 = kind_of cur /\ timestamp c2 = strftime now2).
Proof.
  intros n s p cur now msg Hp Hne Hcur e s1.
  assert (T : transition (Some cur) s = true)
    by (eapply transition_true; eauto).
  assert (P1 : prev_state s1 = prev_state s).
  { subst s1 e. destruct Hcur as [->| ->].
    - rewrite step_open by exact T. reflexivity.
    - rewrite step_closed by exact T. reflexivity. }
  split.
  { intros es. rewrite while_true_running, run_cons. reflexivity. }
  split.
  { subst s1 e. destruct Hcur as [->| ->];
      [rewrite step_open by exact T|rewrite step_closed by exact T];
      cbn [trace]; rewrite !recorded_app; simpl; apply app_nil_r. }
  split.
  { subst s1 e. destruct Hcur as [->| ->];
      [rewrite step_open by exact T|rewrite step_closed by exact T];
      cbn [trace]; rewrite !warnings_app; reflexivity. }
  split; [exact P1|].
  split; [apply transition_emits; assumption|].
  intros now2 sh2. apply transition_emits; [|exact Hcur].
  eapply transition_true; [|exact Hne]. rewrite P1. exact Hp.
Qed.

Lemma sheet_error_witness :
  let s := run false 30 [ok "closed" 0] initial in
  let s1 := run false 30 [bad "open" 60] s in
  recorded (trace s1) = recorded (trace s)
  /\ prev_state s1 = prev_state s
  /\ exists c2, emitted (trace (run false 30 [ok "open" 90] s1))
                = emitted (trace s1) ++ [c2]
                /\ event c2 = "OPEN"
                /\ timestamp c2 = "2024-03-07 00:01:30 UTC".
Proof.
  intros s s1.
  destruct (sheet_error_is_logged_and_event_is_emitted_again 30 s "closed"
              "open" (at_sec 60) "APIError")
    as (_ & H2 & _ & H4 & _ & H6);
    [reflexivity | discriminate | left; reflexivity |].
  split; [exact H2|]. split; [exact H4|].
  exact (H6 (at_sec 90) None).
Defined.

(** C1 as stated fails: the sheet refuses the OPEN row at 60 seconds, and
    the poll at 90 seconds, which returns "open" again, emits a second
    OPEN event that the sheet stores. *)
Lemma failed_event_is_not_dropped :
  let s1 := run false 30 [ok "closed" 0; bad "open" 60] initial in
  let s2 := run false 30 [ok "open" 90] s1 in
  ~ (emitted (trace s2) = emitted (trace s1)
     /\ recorded (trace s2) = recorded (trace s1))
  /\ recorded (trace s1) = []
  /\ recorded (trace s2) = [ ["2024-03-07 00:01:30 UTC"; "OPEN"; ""; ""] ].
Proof.
  intros s1 s2. split.
  - intros [H _]. vm_compute in H. discriminate.
  - vm_compute. split; reflexivity.
Qed.

(** ** Repeated states *)




(** One iteration emits at most one event, and none unless the poll is
    a transition. *)
Lemma step_emits_at_most_one d n cur now sh s :
  exists more,
    emitted (trace (run d n [mk_env (PollReturns cur) now sh] s))
    = emitted (trace s) ++ more
    /\ (List.length more <= 1)%nat
    /\ (transition cur s = false -> more = []).
Proof.
  destruct (transition cur s) eqn:T.
  - destruct (state_cases cur) as [[->| ->]|[Ho Hc]].
    { eexists. rewrite emitted_step_open by exact T.
      split; [reflexivity|]. split; [simpl; lia|discriminate]. }
    { eexists. rewrite emitted_step_closed by exact T.
      split; [reflexivity|]. split; [simpl; lia|discriminate]. }
    exists []. rewrite emitted_step_silent
      by (right; split; assumption).
    rewrite app_nil_r. split; [reflexivity|]. split; [simpl; lia|reflexivity].
  - exists []. rewrite emitted_step_silent by (left; exact T).
    rewrite app_nil_r. split; [reflexivity|]. split; [simpl; lia|reflexivity].
Qed.




(** ** The open interval *)






(** ** Formatting *)

Lemma is_digit_digit_char d : 0 <= d <= 9 -> is_digit (digit_char d) = true.
Proof.
  intros H.
  assert (E : d = 0 \/ d = 1 \/ d = 2 \/ d = 3 \/ d = 4 \/ d = 5 \/ d = 6
              \/ d = 7 \/ d = 8 \/ d = 9) by lia.
  repeat (destruct E as [->|E]; [reflexivity|]). subst d. reflexivity.
Qed.

Lemma is_digit_mod_10 n : is_digit (digit_char (n mod 10)) = true.
Proof.
  apply is_digit_digit_char.
  pose proof (Z.mod_pos_bound n 10 ltac:(lia)). lia.
Qed.

Lemma is_digit_not_minus c : is_digit c = true -> Ascii.eqb c "-"%char = false.
Proof.
  intros H. destruct (Ascii.eqb_spec c "-"%char) as [->|]; [|reflexivity].
  discriminate H.
Qed.

Lemma decimal_aux_all_digits fuel n acc :
  all_digits acc = true -> all_digits (decimal_aux fuel n acc) = true.
Proof.
  revert n acc. induction fuel as [|fuel IH]; intros n acc H; [exact H|].
  simpl. assert (A : all_digits (String (digit_char (n mod 10)) acc) = true).
  { simpl. rewrite is_digit_mod_10. exact H. }
  destruct (n <? 10); [exact A|apply IH, A].
Qed.

Lemma decimal_aux_nonempty fuel n c acc :
  decimal_aux fuel n (String c acc) <> "".
Proof.
  revert n c acc. induction fuel as [|fuel IH]; intros n c acc; [discriminate|].
  simpl. destruct (n <? 10); [discriminate|apply IH].
Qed.

Lemma decimal_all_digits n : all_digits (decimal n) = true.
Proof. apply decimal_aux_all_digits. reflexivity. Qed.

Lemma decimal_nonempty n : decimal n <> "".
Proof.
  unfold decimal. simpl. destruct (n <? 10); [discriminate|].
  apply decimal_aux_nonempty.
Qed.

Lemma decimal_one_digit n :
  0 <= n < 10 -> decimal n = String (digit_char (n mod 10)) "".
Proof.
  intros H. unfold decimal. simpl.
  destruct (Z.ltb_spec n 10); [reflexivity|lia].
Qed.

Lemma digits_point_digit_app seen ds d :
  all_digits ds = true -> is_digit d = true ->
  (seen = true \/ ds <> "") ->
  digits_point_digit seen (ds +:+ "." +:+ String d "") = true.
Proof.
  revert seen. induction ds as [|c ds IH]; intros seen A D S.
  - destruct S as [->|S]; [|congruence]. simpl. exact D.
  - simpl in A. apply andb_true_iff in A. destruct A as [Ac A].
    simpl. rewrite Ac. apply IH; auto.
Qed.

(** A float printed with [.1f] has one decimal place. *)
Lemma format_1f_shape q : one_decimal_shape (format_1f q) = true.
Proof.
  unfold format_1f.
  set (tenths := round_half_even _ _).
  assert (B : 0 <= tenths mod 10 < 10) by (apply Z.mod_pos_bound; lia).
  rewrite (decimal_one_digit (tenths mod 10)) by exact B.
  pose proof (decimal_all_digits (tenths / 10)) as A.
  pose proof (decimal_nonempty (tenths / 10)) as N.
  pose proof (digits_point_digit_app false (decimal (tenths / 10))
                (digit_char (tenths mod 10 mod 10)) A
                (is_digit_mod_10 _) (or_intror N)) as S.
  destruct (Qnum q <? 0).
  - simpl. exact S.
  - simpl. destruct (decimal (tenths / 10)) as [|c ds] eqn:E; [congruence|].
    simpl in A. apply andb_true_iff in A. destruct A as [Ac _].
    unfold one_decimal_shape. simpl.
    rewrite (is_digit_not_minus c Ac). exact S.
Qed.

Lemma format_1f_nonempty q : format_1f q <> "".
Proof.
  intros E. pose proof (format_1f_shape q) as H. rewrite E in H. discriminate.
Qed.

Lemma check_below (P : Z -> bool) (k : Z) :
  forallb P (map Z.of_nat (seq 0 (Z.to_nat k))) = true ->
  forall n, 0 <= n < k -> P n = true.
Proof.
  intros H n Hn. rewrite forallb_forall in H. apply H.
  rewrite <- (Z2Nat.id n) by lia. apply in_map, in_seq. lia.
Qed.

Lemma two_digit_field n : 0 <= n <= 99 -> field_ok 2 (zero_padded 2 n) = true.
Proof.
  intros H.
  apply (check_below (fun n => field_ok 2 (zero_padded 2 n)) 100); [|lia].
  vm_compute. reflexivity.
Qed.

Lemma four_digit_field n :
  0 <= n <= 9999 -> field_ok 4 (zero_padded 4 n) = true.
Proof.
  intros H.
  apply (check_below (fun n => field_ok 4 (zero_padded 4 n)) 10000); [|lia].
  vm_compute. reflexivity.
Qed.

Lemma timestamp_shape_of_fields Y M D h m s :
  field_ok 4 Y = true -> field_ok 2 M = true -> field_ok 2 D = true ->
  field_ok 2 h = true -> field_ok 2 m = true -> field_ok 2 s = true ->
  timestamp_shape (Y +:+ "-" +:+ M +:+ "-" +:+ D +:+ " " +:+ h +:+ ":"
                     +:+ m +:+ ":" +:+ s +:+ " UTC") = true.
Proof.
  unfold field_ok. intros HY HM HD Hh Hm Hs.
  destruct Y as [|y1 [|y2 [|y3 [|y4 [|? ?]]]]]; try discriminate.
  destruct M as [|m1 [|m2 [|? ?]]]; try discriminate.
  destruct D as [|d1 [|d2 [|? ?]]]; try discriminate.
  destruct h as [|h1 [|h2 [|? ?]]]; try discriminate.
  destruct m as [|n1 [|n2 [|? ?]]]; try discriminate.
  destruct s as [|c1 [|c2 [|? ?]]]; try discriminate.
  simpl in HY, HM, HD, Hh, Hm, Hs.
  repeat match goal with
         | H : _ && _ = true |- _ => apply andb_true_iff in H; destruct H
         end.
  unfold timestamp_shape. simpl.
  repeat match goal with
         | H : is_digit ?c = true |- _ => rewrite H; clear H
         end.
  reflexivity.
Qed.

Lemma days_in_month_le_31 y m : days_in_month y m <= 31.
Proof.
  unfold days_in_month. destruct ((m =? 2) && is_leap y); [lia|].
  destruct (Z.to_nat m) as [|[|[|[|[|[|[|[|[|[|[|[|[|k]]]]]]]]]]]]];
    simpl; try lia.
  destruct k; simpl; lia.
Qed.

(** The timestamp of a valid datetime has the shape
    ["YYYY-MM-DD HH:MM:SS UTC"]. *)
Lemma strftime_shape d : valid d -> timestamp_shape (strftime d) = true.
Proof.
  intros (Hy & Hm & Hd & Hh & Hn & Hs & _).
  pose proof (days_in_month_le_31 (year d) (month d)).
  apply timestamp_shape_of_fields;
    solve [apply four_digit_field; lia | apply two_digit_field; lia].
Qed.

(** ** Rows *)

Lemma row_shape_of_fields c : event_fields_ok c -> row_shape (row_of c) = true.
Proof.
  intros (Ht & Hk & Hd & _). unfold row_shape, row_of. rewrite Ht.
  assert (K : String.eqb (event c) "OPEN" || String.eqb (event c) "CLOSE"
              = true).
  { destruct Hk as [->| ->]; reflexivity. }
  rewrite K. destruct (duration_min c); simpl in *.
  - rewrite Hd. apply orb_true_r.
  - reflexivity.
Qed.

Lemma open_event_fields_ok now :
  valid now -> event_fields_ok (mk_call (strftime now) "OPEN" None "").
Proof.
  intros V. unfold event_fields_ok. simpl.
  split; [apply strftime_shape, V|]. auto.
Qed.

Lemma close_event_fields_ok now last :
  valid now ->
  event_fields_ok (mk_call (strftime now) "CLOSE" (close_duration now last) "").
Proof.
  intros V. unfold event_fields_ok. simpl.
  split; [apply strftime_shape, V|]. split; [auto|]. split; [|reflexivity].
  destruct last; simpl; [apply format_1f_shape|reflexivity].
Qed.

Lemma sink_effects_ok d sh c :
  event_fields_ok c -> Forall effect_ok (sink_effects d sh c).
Proof.
  intros H. unfold sink_effects.
  assert (R : exists c', event_fields_ok c' /\ row_of c = row_of c') by eauto.
  assert (P : exists c', event_fields_ok c' /\ dry_run_line c = dry_run_line c')
    by eauto.
  destruct d; [|destruct sh];
    repeat (constructor; [first [exact H|exact R|exact P|exact I]|]);
    constructor.
Qed.

Lemma step_effects_ok d n e s :
  valid (clock e) -> Forall effect_ok (trace s) ->
  Forall effect_ok (trace (run d n [e] s)).
Proof.
  intros V H. destruct e as [[msg|cur] now sh]; cbn [clock] in V.
  { rewrite step_poll_raises. cbn [trace]. apply Forall_app. split; [exact H|].
    repeat constructor. }
  destruct (transition cur s) eqn:T.
  - destruct (state_cases cur) as [[->| ->]|[Ho Hc]].
    { rewrite step_open by exact T. cbn [trace].
      rewrite !Forall_app. split; [exact H|]. split.
      - apply sink_effects_ok, open_event_fields_ok, V.
      - repeat constructor. }
    { rewrite step_closed by exact T. cbn [trace].
      rewrite !Forall_app. split; [exact H|]. split.
      - apply sink_effects_ok, (close_event_fields_ok now _ V).
      - repeat constructor. }
    rewrite step_silent by (right; split; assumption).
    cbn [trace]. apply Forall_app. split; [exact H|]. repeat constructor.
  - rewrite step_silent by (left; exact T).
    cbn [trace]. apply Forall_app. split; [exact H|]. repeat constructor.
Qed.

Lemma run_effects_ok d n es s :
  Forall (fun e => valid (clock e)) es -> Forall effect_ok (trace s) ->
  Forall effect_ok (trace (run d n es s)).
Proof.
  revert s. induction es as [|e es IH]; intros s V H; [exact H|].
  rewrite run_cons. inversion V; subst.
  apply IH; [assumption|]. apply step_effects_ok; assumption.
Qed.

Lemma emitted_ok t : Forall effect_ok t -> Forall event_fields_ok (emitted t).
Proof.
  induction 1 as [|e t He Ht IH]; [constructor|].
  destruct e; simpl; auto.
Qed.

Lemma recorded_ok t :
  Forall effect_ok t ->
  Forall (fun row => exists c, event_fields_ok c /\ row = row_of c) (recorded t).
Proof.
  induction 1 as [|e t He Ht IH]; [constructor|].
  destruct e; simpl; auto.
Qed.

Lemma printed_ok t :
  Forall effect_ok t ->
  Forall (fun line => exists c, event_fields_ok c /\ line = dry_run_line c)
    (printed t).
Proof.
  induction 1 as [|e t He Ht IH]; [constructor|].
  destruct e; simpl; auto.
Qed.

(** In dry-run mode nothing reaches the sheet; otherwise nothing is
    printed. *)
Lemma step_mode (d : bool) n e s :
  (if d then recorded (trace (run d n [e] s)) = recorded (trace s)
   else printed (trace (run d n [e] s)) = printed (trace s)).
Proof.
  destruct s as [p l t]. rewrite run_frame. cbn [trace].
  destruct e as [[msg|cur] now sh].
  { rewrite step_poll_raises. cbn [trace].
    destruct d; rewrite ?recorded_app, ?printed_app; simpl; apply app_nil_r. }
  destruct (transition cur (mk_state p l [])) eqn:T.
  - destruct (state_cases cur) as [[->| ->]|[Ho Hc]].
    { rewrite step_open by exact T. cbn [trace]. unfold sink_effects.
      destruct d; [|destruct sh];
        rewrite ?recorded_app, ?printed_app; simpl; apply app_nil_r. }
    { rewrite step_closed by exact T. cbn [trace]. unfold sink_effects.
      destruct d; [|destruct sh];
        rewrite ?recorded_app, ?printed_app; simpl; apply app_nil_r. }
    rewrite step_silent by (right; split; assumption).
    cbn [trace].
    destruct d; rewrite ?recorded_app, ?printed_app; simpl; apply app_nil_r.
  - rewrite step_silent by (left; exact T). cbn [trace].
    destruct d; rewrite ?recorded_app, ?printed_app; simpl; apply app_nil_r.
Qed.

Lemma run_mode (d : bool) n es s :
  (if d then recorded (trace (run d n es s)) = recorded (trace s)
   else printed (trace (run d n es s)) = printed (trace s)).
Proof.
  revert s. induction es as [|e es IH]; intros s.
  - rewrite run_nil. destruct d; reflexivity.
  - rewrite run_cons. specialize (IH (run d n [e] s)).
    pose proof (step_mode d n e s) as H.
    destruct d; congruence.
Qed.

(** C9. Whatever the mode, every event of a run whose clock readings are
    valid datetimes has a timestamp of the shape
    ["YYYY-MM-DD HH:MM:SS UTC"], the kind OPEN or CLOSE, a duration text
    with exactly one decimal place when it has a duration and the empty
    string when it has none, and notes; every row the sheet stores is
    the list of these four fields, and every line printed in dry-run mode
    is made of these four fields. *)
Theorem event_rows_have_the_documented_shape :
  forall d n es,
    Forall (fun e => valid (clock e)) es ->
    let t := trace (run d n es initial) in
    Forall event_fields_ok (emitted t)
    /\ Forall (fun row => row_shape row = true
                          /\ exists c, event_fields_ok c /\ row = row_of c)
         (recorded t)
    /\ Forall (fun line => exists c, event_fields_ok c /\ line = dry_run_line c)
         (printed t)
    /\ (if d then recorded t = [] else printed t = []).
Proof.
  intros d n es V t.
  assert (H : Forall effect_ok t).
  { subst t. apply run_effects_ok; [exact V|constructor]. }
  split; [apply emitted_ok, H|].
  split.
  { eapply List.Forall_impl; [|apply recorded_ok, H].
    intros row (c & Hc & ->). split; [apply row_shape_of_fields, Hc|eauto]. }
  split; [apply printed_ok, H|].
  subst t. apply (run_mode d n es initial).
Qed.

Lemma event_rows_witness :
  let es := [ok "closed" 0; ok "open" 60; ok "closed" 600] in
  Forall (fun row => row_shape row = true
                     /\ exists c, event_fields_ok c /\ row = row_of c)
    (recorded (trace (run false 30 es initial)))
  /\ recorded (trace (run false 30 es initial))
     = [ ["2024-03-07 00:01:00 UTC"; "OPEN"; ""; ""];
         ["2024-03-07 00:10:00 UTC"; "CLOSE"; "9.0"; ""] ].
Proof.
  intros es. split; [|vm_compute; reflexivity].
  apply (event_rows_have_the_documented_shape false 30 es).
  unfold es, valid. repeat constructor; vm_compute; congruence.
Defined.

(** ** The polling interval *)

Lemma slept_step d n e s :
  slept (trace (run d n [e] s)) = slept (trace s) ++ [YInt n].
Proof.
  destruct e as [[msg|cur] now sh].
  { rewrite step_poll_raises. cbn [trace]. rewrite slept_app. reflexivity. }
  destruct (transition cur s) eqn:T.
  - destruct (state_cases cur) as [[->| ->]|[Ho Hc]].
    { rewrite step_open by exact T. cbn [trace]. unfold sink_effects.
      destruct d; [|destruct sh]; rewrite !slept_app; reflexivity. }
    { rewrite step_closed by exact T. cbn [trace]. unfold sink_effects.
      destruct d; [|destruct sh]; rewrite !slept_app; reflexivity. }
    rewrite step_silent by (right; split; assumption).
    cbn [trace]. rewrite slept_app. reflexivity.
  - rewrite step_silent by (left; exact T).
    cbn [trace]. rewrite slept_app. reflexivity.
Qed.

Lemma slept_run d n es s :
  slept (trace (run d n es s))
  = slept (trace s) ++ repeat (YInt n) (List.length es).
Proof.
  revert s. induction es as [|e es IH]; intros s.
  - rewrite run_nil. simpl. symmetry. apply app_nil_r.
  - rewrite run_cons, IH, slept_step, <- app_assoc. reflexivity.
Qed.

(** C3, as the loop has it. The interval is
    [cfg.get("polling_interval_seconds", 30)]: 30 when the key is unset,
    and otherwise the configured value as it stands. No check is made on
    it: with at least one device and any integer interval, of either
    sign, the loop starts, and every iteration sleeps that interval. *)
Theorem interval_is_read_without_validation :
  forall (cfg : gmap string yaml) (v : yaml) (k : Z) n_devices d es,
    get_interval (delete "polling_interval_seconds" cfg) = YInt 30
    /\ get_interval (<["polling_interval_seconds" := v]> cfg) = v
    /\ poll_loop (<["polling_interval_seconds" := YInt k]> cfg)
         (S n_devices) d es
       = Running (run d k es initial)
    /\ slept (trace (run d k es initial)) = repeat (YInt k) (List.length es).
Proof.
  intros cfg v k n_devices d es. unfold poll_loop, get_interval.
  rewrite lookup_delete_eq, !lookup_insert_eq. simpl.
  split; [reflexivity|]. split; [reflexivity|].
  split; [apply while_true_running|]. apply slept_run.
Qed.

(** C3 as stated fails: an interval of -5 seconds is not rejected when
    the loop starts; both iterations run and sleep -5. *)
Lemma non_positive_interval_is_used :
  let cfg : gmap string yaml := {[ "polling_interval_seconds" := YInt (-5) ]} in
  let o := poll_loop cfg 1 true [ok "closed" 0; ok "open" 30] in
  ~ (exists code, o = Exited code)
  /\ get_interval cfg = YInt (-5)
  /\ slept (trace (state_of o)) = [YInt (-5); YInt (-5)]
  /\ emitted (trace (state_of o))
     = [mk_call "2024-03-07 00:00:30 UTC" "OPEN" None ""].
Proof.
  intros cfg o.
  assert (E : o = Running (run true (-5) [ok "closed" 0; ok "open" 30] initial)).
  { subst o cfg. unfold poll_loop, get_interval.
    rewrite lookup_singleton_eq. apply while_true_running. }
  split; [intros [code H]; rewrite E in H; discriminate|].
  split.
  { unfold get_interval. subst cfg. rewrite lookup_singleton_eq. reflexivity. }
  rewrite E. vm_compute. split; reflexivity.
Qed.

(** ** Further properties of the loop *)

Lemma attempted_app t1 t2 : attempted (t1 ++ t2) = attempted t1 ++ attempted t2.
Proof.
  induction t1 as [|e t1 IH]; [reflexivity|].
  destruct e; simpl; rewrite ?IH; reflexivity.
Qed.

Lemma infos_app t1 t2 : infos (t1 ++ t2) = infos t1 ++ infos t2.
Proof.
  induction t1 as [|e t1 IH]; [reflexivity|].
  destruct e; simpl; rewrite ?IH; reflexivity.
Qed.

(** What one iteration appends to the trace: a warning for a failed poll,
    nothing for a poll that emits no event, the effects of one event
    otherwise; and then the sleep. *)
Lemma step_trace d n e s :
  (exists msg, door e = PollRaises msg
     /\ run d n [e] s
        = mk_state (prev_state s) (last_open_time s)
            (trace s ++ [LogWarning ("Poll error (will retry): " +:+ msg)]
               ++ [Sleep (YInt n)]))
  \/ (answered e = true
      /\ trace (run d n [e] s) = trace s ++ [] ++ [Sleep (YInt n)])
  \/ (answered e = true
      /\ exists c, trace (run d n [e] s)
                   = trace s ++ sink_effects d (sheet_error e) c
                       ++ [Sleep (YInt n)]).
Proof.
  destruct e as [[msg|cur] now sh]; cbn [door sheet_error].
  { left. exists msg. split; [reflexivity|]. apply step_poll_raises. }
  right. unfold answered. cbn [door].
  destruct (transition cur s) eqn:T.
  - destruct (state_cases cur) as [[->| ->]|[Ho Hc]].
    { right. split; [reflexivity|]. eexists.
      rewrite step_open by exact T. reflexivity. }
    { right. split; [reflexivity|]. eexists.
      rewrite step_closed by exact T. reflexivity. }
    left. split; [reflexivity|].
    rewrite step_silent by (right; split; assumption).
    reflexivity.
  - left. split; [reflexivity|].
    rewrite step_silent by (left; exact T). reflexivity.
Qed.

Lemma dry_run_step_ignores_sheet n f e s :
  run true n [with_sheet f e] s = run true n [e] s.
Proof.
  destruct e as [[msg|cur] now sh]; unfold with_sheet; cbn [door clock].
  { rewrite !step_poll_raises. reflexivity. }
  destruct (transition cur s) eqn:T.
  - destruct (state_cases cur) as [[->| ->]|[Ho Hc]].
    { rewrite !step_open by exact T. reflexivity. }
    { rewrite !step_closed by exact T. reflexivity. }
    rewrite !step_silent
      by (right; split; assumption).
    reflexivity.
  - rewrite !step_silent by (left; exact T). reflexivity.
Qed.

Lemma dry_run_step_attempts_nothing n e s :
  attempted (trace (run true n [e] s)) = attempted (trace s).
Proof.
  destruct (step_trace true n e s) as [(msg & _ & E)|[(_ & E)|(_ & c & E)]];
    rewrite E; cbn [trace]; rewrite !attempted_app; simpl; apply app_nil_r.
Qed.

(** X1. In dry-run mode the sheet is never called, and what the sheet
    would have answered changes nothing: the run ends in the same state
    with the same trace. *)
Theorem dry_run_never_calls_the_sheet :
  forall n es s (f : env -> option string),
    attempted (trace (run true n es s)) = attempted (trace s)
    /\ run true n (map (with_sheet f) es) s = run true n es s.
Proof.
  intros n es s f. revert s.
  induction es as [|e es IH]; intros s; [split; reflexivity|].
  cbn [map]. rewrite run_cons, (run_cons true n (with_sheet f e)).
  rewrite dry_run_step_ignores_sheet.
  destruct (IH (run true n [e] s)) as [IH1 IH2].
  rewrite IH1, IH2, dry_run_step_attempts_nothing. split; reflexivity.
Qed.

(** The sink has been handed the emitted events of [t], in order. *)
Lemma handed_over_step (d : bool) n e s :
  (if d then printed (trace s) = map dry_run_line (emitted (trace s))
   else attempted (trace s) = map row_of (emitted (trace s))
        /\ (List.length (recorded (trace s))
            + List.length (sheet_failures (trace s))
            = List.length (emitted (trace s)))%nat
        /\ List.length (infos (trace s)) = List.length (recorded (trace s))) ->
  (if d then printed (trace (run d n [e] s))
             = map dry_run_line (emitted (trace (run d n [e] s)))
   else attempted (trace (run d n [e] s))
        = map row_of (emitted (trace (run d n [e] s)))
        /\ (List.length (recorded (trace (run d n [e] s)))
            + List.length (sheet_failures (trace (run d n [e] s)))
            = List.length (emitted (trace (run d n [e] s))))%nat
        /\ List.length (infos (trace (run d n [e] s)))
           = List.length (recorded (trace (run d n [e] s)))).
Proof.
  intros H.
  destruct (step_trace d n e s) as [(msg & _ & E)|[(_ & E)|(_ & c & E)]];
    rewrite E; cbn [trace]; unfold sink_effects;
    destruct d; [| |  | | |destruct (sheet_error e)];
    rewrite !emitted_app, ?printed_app, ?attempted_app, ?recorded_app,
      ?sheet_failures_app, ?infos_app, ?map_app, ?List.length_app;
    cbn [emitted printed attempted recorded sheet_failures infos map
         List.length app];
    rewrite ?app_nil_r; try (rewrite H; reflexivity);
    destruct H as (H1 & H2 & H3); rewrite H1;
    (split; [reflexivity|]); split; lia.
Qed.

(** X2. Every emitted event is handed to the sink exactly once and in the
    order of emission. In dry-run mode the printed lines are the lines of
    the emitted events, in that order. In durable mode the rows handed to
    the sheet, accepted or refused, are the rows of the emitted events, in
    that order; the stored and the refused rows together are as many as
    the events; and there is one INFO message per stored row. *)
Theorem events_reach_the_sink_in_order :
  forall (d : bool) n es,
    let t := trace (run d n es initial) in
    if d then printed t = map dry_run_line (emitted t)
    else attempted t = map row_of (emitted t)
         /\ (List.length (recorded t) + List.length (sheet_failures t)
             = List.length (emitted t))%nat
         /\ List.length (infos t) = List.length (recorded t).
Proof.
  intros d n es. cbv zeta.
  induction es as [|e es IH] using rev_ind.
  - rewrite run_nil. destruct d; simpl; auto.
  - rewrite run_app. apply handed_over_step, IH.
Qed.



(** Either no poll has been answered yet, and nothing is emitted or
    stored, or the events are fewer than the answered polls. *)
Lemma emitted_count_step d n e s (a : nat) :
  (a = 0%nat /\ emitted (trace s) = [] /\ prev_state s = None)
  \/ (List.length (emitted (trace s)) + 1 <= a)%nat ->
  let a' := (a + (if answered e then 1 else 0))%nat in
  (a' = 0%nat /\ emitted (trace (run d n [e] s)) = []
   /\ prev_state (run d n [e] s) = None)
  \/ (List.length (emitted (trace (run d n [e] s))) + 1 <= a')%nat.
Proof.
  intros H. destruct e as [[msg|cur] now sh]; unfold answered; cbn [door].
  { rewrite step_poll_raises. cbn [trace prev_state].
    rewrite emitted_app. simpl. rewrite app_nil_r, Nat.add_0_r. exact H. }
  right.
  destruct (step_emits_at_most_one d n cur now sh s) as (more & E & L & N).
  rewrite E, List.length_app.
  destruct H as [(-> & H1 & H2)|H].
  - rewrite (N (transition_initial cur s H2)), H1. simpl. lia.
  - lia.
Qed.

(** X4. An iteration emits at most one event and the first answered poll
    emits none: a run emits fewer events than it has answered polls. *)
Theorem fewer_events_than_answered_polls :
  forall d n es,
    (List.length (emitted (trace (run d n es initial)))
     <= List.length (List.filter answered es) - 1)%nat.
Proof.
  intros d n es.
  assert (H : (List.length (List.filter answered es) = 0%nat
               /\ emitted (trace (run d n es initial)) = []
               /\ prev_state (run d n es initial) = None)
              \/ (List.length (emitted (trace (run d n es initial))) + 1
                  <= List.length (List.filter answered es))%nat).
  { induction es as [|e es IH] using rev_ind; [left; auto|].
    rewrite run_app, List.filter_app, List.length_app.
    pose proof (emitted_count_step d n e (run d n es initial) _ IH) as H.
    cbn [List.filter]. destruct (answered e); simpl in *; exact H. }
  destruct H as [(_ & -> & _)|H]; simpl; lia.
Qed.

(** ** Durations and pairing over a whole run *)

(** What an answered poll does to the events and to the two variables. *)
Lemma step_summary d n cur now sh s :
  (emitted (trace (run d n [mk_env (PollReturns cur) now sh] s))
   = emitted (trace s)
   /\ last_open_time (run d n [mk_env (PollReturns cur) now sh] s)
      = last_open_time s
   /\ prev_state (run d n [mk_env (PollReturns cur) now sh] s) = cur
   /\ (transition cur s = false
       \/ (cur <> Some "open" /\ cur <> Some "closed")))
  \/ (cur = Some "open" /\ transition cur s = true
      /\ emitted (trace (run d n [mk_env (PollReturns cur) now sh] s))
         = emitted (trace s) ++ [mk_call (strftime now) "OPEN" None ""]
      /\ last_open_time (run d n [mk_env (PollReturns cur) now sh] s)
         = Some now
      /\ prev_state (run d n [mk_env (PollReturns cur) now sh] s)
         = (if sink_raises d sh then prev_state s else Some "open"))
  \/ (cur = Some "closed" /\ transition cur s = true
      /\ emitted (trace (run d n [mk_env (PollReturns cur) now sh] s))
         = emitted (trace s)
           ++ [mk_call (strftime now) "CLOSE"
                 (close_duration now (last_open_time s)) ""]
      /\ last_open_time (run d n [mk_env (PollReturns cur) now sh] s)
         = (if sink_raises d sh then last_open_time s else None)
      /\ prev_state (run d n [mk_env (PollReturns cur) now sh] s)
         = (if sink_raises d sh then prev_state s else Some "closed")).
Proof.
  destruct (transition cur s) eqn:T.
  - destruct (state_cases cur) as [[->| ->]|[Ho Hc]].
    { right. left. rewrite emitted_step_open by exact T.
      rewrite step_open by exact T. repeat (split; [reflexivity|]).
      reflexivity. }
    { right. right. rewrite emitted_step_closed by exact T.
      rewrite step_closed by exact T. repeat (split; [reflexivity|]).
      reflexivity. }
    left. rewrite emitted_step_silent
      by (right; split; assumption).
    rewrite step_silent by (right; split; assumption).
    do 3 (split; [reflexivity|]). right. split; assumption.
  - left. rewrite emitted_step_silent by (left; exact T).
    rewrite step_silent by (left; exact T).
    do 3 (split; [reflexivity|]). left. reflexivity.
Qed.

Lemma elapsed_minutes_not_negative a b :
  instant b <= instant a -> (0 <= sub_total_seconds a b / 60)%Q.
Proof.
  intros H. rewrite sub_total_seconds_instant, minutes_of_microseconds.
  unfold Qle. simpl. lia.
Qed.

Lemma durations_not_negative_run d n es :
  forall s last,
    clock_ordered last es ->
    (forall t0, last_open_time s = Some t0 ->
                exists tl, last = Some tl /\ instant t0 <= instant tl) ->
    Forall duration_not_negative (emitted (trace s)) ->
    Forall duration_not_negative (emitted (trace (run d n es s))).
Proof.
  induction es as [|e es IH]; intros s last O K F; [exact F|].
  rewrite run_cons. destruct e as [[msg|cur] now sh].
  - unfold clock_ordered in O. unfold answered in O. cbn [door] in O.
    apply (IH _ last); [exact O| |].
    + rewrite step_poll_raises. exact K.
    + rewrite step_poll_raises. cbn [trace]. rewrite emitted_app. simpl.
      rewrite app_nil_r. exact F.
  - cbn [clock_ordered] in O. unfold answered in O. cbn [door clock] in O.
    destruct O as [O1 O2].
    assert (B : forall t0, last_open_time s = Some t0 ->
                           instant t0 <= instant now).
    { intros t0 E. destruct (K t0 E) as (tl & -> & L). lia. }
    apply (IH _ (Some now)); [exact O2| |].
    + intros t0 E. exists now. split; [reflexivity|].
      destruct (step_summary d n cur now sh s)
        as [(_ & L & _)|[(_ & _ & _ & L & _)|(_ & _ & _ & L & _)]];
        rewrite L in E.
      * apply B, E.
      * injection E as <-. lia.
      * destruct (sink_raises d sh); [apply B, E|discriminate].
    + destruct (step_summary d n cur now sh s)
        as [(E & _)|[(_ & _ & E & _)|(_ & _ & E & _)]]; rewrite E.
      * exact F.
      * apply Forall_app. split; [exact F|]. constructor; [exact I|constructor].
      * apply Forall_app. split; [exact F|]. constructor; [|constructor].
        unfold duration_not_negative, close_duration. cbn [duration_min].
        destruct (last_open_time s) as [t0|] eqn:E0; [|exact I].
        apply elapsed_minutes_not_negative, B. reflexivity.
Qed.

(** X5. When the clock never goes back from one answered poll to the
    next, no emitted event has a negative duration. *)
Theorem durations_are_not_negative :
  forall d n es,
    clock_never_goes_back es ->
    Forall duration_not_negative (emitted (trace (run d n es initial))).
Proof.
  intros d n es O. apply (durations_not_negative_run d n es initial None O).
  - intros t0 E. discriminate E.
  - constructor.
Qed.

Lemma durations_witness :
  Forall duration_not_negative
    (emitted (trace (run false 30
       [ok "closed" 0; ok "open" 60; down 30; ok "closed" 600] initial))).
Proof.
  apply (durations_are_not_negative false 30
           [ok "closed" 0; ok "open" 60; down 30; ok "closed" 600]).
  unfold clock_never_goes_back. simpl. vm_compute. intuition discriminate.
Defined.








(** ** An interval that is not a number *)

Lemma try_except_initial d e :
  exists s, try_except d e initial = (Ok tt, s)
            /\ emitted (trace s) = [] /\ recorded (trace s) = []
            /\ slept (trace s) = []
            /\ prev_state s = match door e with
                              | PollRaises _ => None
                              | PollReturns st => st
                              end.
Proof.
  destruct e as [[msg|[cur|]] now sh];
    unfold try_except, try_body, door_update, bind, ret, raise, emit,
      get_prev_state, set_prev_state, initial;
    cbn; eexists; repeat split.
Qed.

(** X7. An interval that is not a number (a string, a null, a mapping) is
    not rejected when the loop starts either: with at least one device,
    the first iteration runs, emitting and storing nothing, and the loop
    ends on the [TypeError] of its first sleep. *)
Theorem non_numeric_interval_crashes_at_first_sleep :
  forall (cfg : gmap string yaml) v n_devices d e es,
    is_number v = false ->
    exists s,
      poll_loop (<["polling_interval_seconds" := v]> cfg) (S n_devices) d
        (e :: es)
      = Crashed "TypeError" s
      /\ emitted (trace s) = [] /\ recorded (trace s) = []
      /\ slept (trace s) = []
      /\ prev_state s = match door e with
                        | PollRaises _ => None
                        | PollReturns st => st
                        end.
Proof.
  intros cfg v n_devices d e es N.
  destruct (try_except_initial d e) as (s & E & H).
  exists s. split; [|exact H].
  unfold poll_loop, get_interval. rewrite lookup_insert_eq.
  cbn [default Nat.eqb while_true]. unfold iteration, bind. rewrite E.
  destruct v; try discriminate N; reflexivity.
Qed.

Lemma non_numeric_interval_witness :
  exists s,
    poll_loop {[ "polling_interval_seconds" := YStr "30s" ]} 1 true
      [ok "open" 0; ok "closed" 30]
    = Crashed "TypeError" s
    /\ emitted (trace s) = [].
Proof.
  destruct (non_numeric_interval_crashes_at_first_sleep ∅ (YStr "30s") 0 true
              (ok "open" 0) [ok "closed" 30] eq_refl)
    as (s & E & H & _).
  exists s. split; [exact E|exact H].
Defined.

(** ** Reading a duration back *)

Lemma digit_value_digit_char d : 0 <= d <= 9 -> digit_value (digit_char d) = d.
Proof.
  intros H.
  assert (E : d = 0 \/ d = 1 \/ d = 2 \/ d = 3 \/ d = 4 \/ d = 5 \/ d = 6
              \/ d = 7 \/ d = 8 \/ d = 9) by lia.
  repeat (destruct E as [->|E]; [reflexivity|]). subst d. reflexivity.
Qed.

Lemma decimal_aux_value fuel :
  forall n acc,
    0 <= n < 10 ^ Z.of_nat fuel ->
    digits_value 0 (decimal_aux fuel n acc) = digits_value n acc.
Proof.
  induction fuel as [|fuel IH]; intros n acc H.
  - simpl in H. assert (n = 0) by lia. subst n. reflexivity.
  - cbn [decimal_aux].
    pose proof (Z.mod_pos_bound n 10 ltac:(lia)) as M.
    destruct (Z.ltb_spec n 10) as [L|L].
    + cbn [digits_value]. rewrite digit_value_digit_char by lia.
      rewrite Z.mod_small by lia. reflexivity.
    + rewrite IH.
      * cbn [digits_value]. rewrite digit_value_digit_char by lia.
        f_equal. pose proof (Z.div_mod n 10 ltac:(lia)). lia.
      * rewrite Nat2Z.inj_succ, Z.pow_succ_r in H by lia.
        split; [apply Z.div_pos; lia|].
        apply Z.div_lt_upper_bound; lia.
Qed.

(** The digits of [decimal n] read back as [n]. *)
Lemma decimal_value n : 0 <= n -> digits_value 0 (decimal n) = n.
Proof.
  intros H. unfold decimal. rewrite decimal_aux_value; [reflexivity|].
  split; [exact H|].
  rewrite Nat2Z.inj_succ, Z2Nat.id by apply Z.log2_nonneg.
  destruct (Z.eq_dec n 0) as [->|N]; [reflexivity|].
  pose proof (Z.log2_spec n ltac:(lia)) as [_ U].
  pose proof (Z.log2_nonneg n) as G.
  eapply Z.lt_le_trans; [exact U|].
  apply Z.pow_le_mono_l. lia.
Qed.

Lemma read_tenths_app acc ds d :
  all_digits ds = true -> is_digit d = true ->
  read_tenths acc (ds +:+ "." +:+ String d "")
  = Some (digits_value acc ds * 10 + digit_value d).
Proof.
  revert acc. induction ds as [|c ds IH]; intros acc A D.
  - simpl. rewrite D. reflexivity.
  - simpl in A. apply andb_true_iff in A. destruct A as [Ac A].
    simpl. rewrite Ac. apply IH; assumption.
Qed.

(** Rounding to the nearest integer is off by at most one half. *)
Lemma round_half_even_bound n d :
  0 <= n -> 0 < d ->
  0 <= round_half_even n d
  /\ Z.abs (2 * n - 2 * d * round_half_even n d) <= d.
Proof.
  intros Hn Hd. unfold round_half_even.
  pose proof (Z.div_mod n d ltac:(lia)) as E.
  pose proof (Z.mod_pos_bound n d Hd) as M.
  pose proof (Z.div_pos n d Hn Hd) as P.
  destruct (Z.compare_spec (2 * (n mod d)) d) as [C|C|C];
    [destruct (Z.even (n / d))| |]; split; nia.
Qed.

(** X8. The duration text of a row reads back as a number within 0.05 of
    the duration: [f"{duration_min:.1f}"] rounds to the nearest tenth of
    a minute. *)
Theorem duration_text_is_within_a_twentieth :
  forall q,
    exists y, parse_1f (dur_str_of (Some q)) = Some y
              /\ (Qabs (q - y) <= 1 # 20)%Q.
Proof.
  intros [num den]. unfold dur_str_of, format_1f. cbn [Qnum Qden].
  set (T := round_half_even (Z.abs num * 10) (Z.pos den)).
  destruct (round_half_even_bound (Z.abs num * 10) (Z.pos den)
              ltac:(lia) ltac:(lia)) as [T0 B]. fold T in T0, B.
  assert (M : 0 <= T mod 10 < 10) by (apply Z.mod_pos_bound; lia).
  assert (R : read_tenths 0 (decimal (T / 10) +:+ "." +:+ decimal (T mod 10))
              = Some T).
  { rewrite (decimal_one_digit (T mod 10)) by exact M.
    rewrite read_tenths_app
      by (apply decimal_all_digits || apply is_digit_mod_10).
    rewrite decimal_value by (apply Z.div_pos; lia).
    rewrite digit_value_digit_char by (rewrite Z.mod_small; lia).
    rewrite Z.mod_small by lia.
    pose proof (Z.div_mod T 10 ltac:(lia)). f_equal. lia. }
  destruct (Z.ltb_spec num 0) as [L|L].
  - exists ((- T) # 10). split.
    + change (option_map (fun t => - t # 10)
                (read_tenths 0
                   (decimal (T / 10) +:+ "." +:+ decimal (T mod 10)))
              = Some (- T # 10)).
      rewrite R. reflexivity.
    + unfold Qle, Qabs, Qminus, Qplus, Qopp. cbn [Qnum Qden].
      rewrite Pos2Z.inj_mul. lia.
  - exists (T # 10). split.
    + pose proof (decimal_all_digits (T / 10)) as A.
      pose proof (decimal_nonempty (T / 10)) as N.
      destruct (decimal (T / 10)) as [|c ds] eqn:E; [congruence|].
      simpl in A. apply andb_true_iff in A. destruct A as [Ac _].
      change (parse_1f (String c (ds +:+ "." +:+ decimal (T mod 10)))
              = Some (T # 10)).
      unfold parse_1f. rewrite (is_digit_not_minus c Ac).
      change (String c (ds +:+ "." +:+ decimal (T mod 10)))
        with (String c ds +:+ "." +:+ decimal (T mod 10)).
      rewrite R. reflexivity.
    + unfold Qle, Qabs, Qminus, Qplus, Qopp. cbn [Qnum Qden].
      rewrite Pos2Z.inj_mul. lia.
Qed.

(** ** Choosing the door *)

Lemma find_door_already_found devices dev :
  Startup.find_door devices (Some dev) = (Some dev, found_all devices).
Proof.
  induction devices as [|[id x] devices IH]; [reflexivity|].
  cbn [Startup.find_door is_not_none negb andb]. rewrite IH. reflexivity.
Qed.

Lemma find_door_no_door devices :
  Forall not_a_door devices ->
  Startup.find_door devices None = (None, found_all devices).
Proof.
  induction 1 as [|[id x] devices H F IH]; [reflexivity|].
  unfold not_a_door in H. cbn [snd] in H.
  cbn [Startup.find_door is_not_none negb andb]. rewrite H, IH. reflexivity.
Qed.

Lemma find_door_first_door pre id dev post :
  Forall not_a_door pre ->
  Startup.is_door_type (Startup.device_type dev) = true ->
  Startup.find_door (pre ++ (id, dev) :: post) None
  = (Some dev, found_all (pre ++ (id, dev) :: post)).
Proof.
  intros F D. induction F as [|[id' x] pre H F IH].
  - cbn [app Startup.find_door is_not_none negb andb]. rewrite D.
    rewrite find_door_already_found. reflexivity.
  - unfold not_a_door in H. cbn [snd] in H.
    cbn [app Startup.find_door is_not_none negb andb]. rewrite H, IH.
    reflexivity.
Qed.

(** X9. When some listed device is of a door type, the first such device
    in the order of the listing is monitored, every device is logged once
    in that order, and no fallback warning is logged. *)
Theorem select_door_picks_first_door_device :
  forall pre id dev post,
    Forall not_a_door pre ->
    Startup.is_door_type (Startup.device_type dev) = true ->
    Startup.select_door (pre ++ (id, dev) :: post)
    = Startup.Door dev
        (found_all (pre ++ (id, dev) :: post) ++ [Startup.monitoring dev]).
Proof.
  intros pre id dev post F D. unfold Startup.select_door.
  rewrite (find_door_first_door pre id dev post F D).
  destruct pre as [|[id' x] pre]; reflexivity.
Qed.

Lemma select_door_witness :
  let light := Startup.mk_device "Lamp" (Some "lamp") (Some "on") "L1" in
  let gate := Startup.mk_device "Gate" None None "G1" in
  let garage :=
    Startup.mk_device "Garage" (Some "VirtualGarageDoorOpener")
      (Some "closed") "D1" in
  let side :=
    Startup.mk_device "Side" (Some "garagedooropener") (Some "open") "D2" in
  let devices := [("L1", light); ("G1", gate); ("D1", garage); ("D2", side)] in
  Startup.select_door devices
  = Startup.Door garage (found_all devices ++ [Startup.monitoring garage]).
Proof.
  intros light gate garage side devices.
  apply (select_door_picks_first_door_device
           [("L1", light); ("G1", gate)] "D1" garage [("D2", side)]).
  - repeat (apply List.Forall_cons; [reflexivity|]). apply List.Forall_nil.
  - reflexivity.
Defined.

(** X10. When no listed device is of a door type, the first device of
    the listing is monitored and the fallback warning is logged, after
    every device has been logged once. *)
Theorem select_door_falls_back_to_first_device :
  forall id dev rest,
    Forall not_a_door ((id, dev) :: rest) ->
    Startup.select_door ((id, dev) :: rest)
    = Startup.Door dev
        (found_all ((id, dev) :: rest)
           ++ [Startup.fallback dev; Startup.monitoring dev]).
Proof.
  intros id dev rest F. unfold Startup.select_door.
  rewrite (find_door_no_door _ F). reflexivity.
Qed.

Lemma select_door_fallback_witness :
  let light := Startup.mk_device "Lamp" (Some "lamp") (Some "on") "L1" in
  let gate := Startup.mk_device "Gate" None None "G1" in
  Startup.select_door [("L1", light); ("G1", gate)]
  = Startup.Door light
      (found_all [("L1", light); ("G1", gate)]
         ++ [Startup.fallback light; Startup.monitoring light]).
Proof.
  intros light gate.
  apply (select_door_falls_back_to_first_device "L1" light [("G1", gate)]).
  repeat (apply List.Forall_cons; [reflexivity|]). apply List.Forall_nil.
Defined.

Lemma find_door_result devices :
  match (Startup.find_door devices None).1 with
  | Some dev => In dev (map snd devices)
                /\ Startup.is_door_type (Startup.device_type dev) = true
  | None => Forall not_a_door devices
  end.
Proof.
  induction devices as [|[id x] devices IH]; [constructor|].
  cbn [Startup.find_door is_not_none negb andb].
  destruct (Startup.is_door_type (Startup.device_type x)) eqn:D.
  - rewrite find_door_already_found. cbn [fst map snd]. split; [left|]; auto.
  - destruct (Startup.find_door devices None) as [r logs]. cbn [fst] in *.
    destruct r as [dev|].
    + destruct IH as [I T]. split; [right; exact I|exact T].
    + constructor; [exact D|exact IH].
Qed.

(** X11. The start gives up (exit code 1, one ERROR record) exactly when
    the account lists no device; otherwise the monitored device is one of
    the listed ones, and it is of a door type unless no listed device
    is. *)
Theorem selected_door_is_listed :
  forall devices,
    match Startup.select_door devices with
    | Startup.NoDevice logs =>
        devices = []
        /\ logs = [Startup.mk_log Startup.ERROR
                     "No MyQ devices found. Check credentials." []]
    | Startup.Door dev _ =>
        In dev (map snd devices)
        /\ (Startup.is_door_type (Startup.device_type dev) = true
            \/ Forall not_a_door devices)
    end.
Proof.
  intros [|[id first] rest]; [split; reflexivity|].
  unfold Startup.select_door.
  pose proof (find_door_result ((id, first) :: rest)) as H.
  destruct (Startup.find_door ((id, first) :: rest) None) as [[dev|] logs];
    cbn [fst] in H.
  - destruct H as [I T]. split; [exact I|left; exact T].
  - split; [left; reflexivity|right; exact H].
Qed.

Lemma lower_app a b :
  Startup.lower (a +:+ b) = Startup.lower a +:+ Startup.lower b.
Proof. induction a as [|c a IH]; [reflexivity|]. simpl. rewrite IH. reflexivity. Qed.

Lemma prefix_app n b : String.prefix n (n +:+ b) = true.
Proof.
  induction n as [|c n IH]; [destruct b; reflexivity|]. simpl.
  destruct (ascii_dec c c); [exact IH|congruence].
Qed.

Lemma contains_app n a b : Startup.contains n (a +:+ n +:+ b) = true.
Proof.
  induction a as [|c a IH].
  - destruct n as [|c n]; [destruct b; reflexivity|].
    change (String.prefix (String c n) (String c n +:+ b)
            || Startup.contains (String c n) (n +:+ b) = true).
    rewrite (prefix_app (String c n) b). reflexivity.
  - change (String.prefix n (String c (a +:+ n +:+ b))
            || Startup.contains n (a +:+ n +:+ b) = true).
    rewrite IH. apply orb_true_r.
Qed.

Lemma prefix_of_lower n :
  forall t, String.prefix n (Startup.lower t) = true ->
            exists w post, t = w +:+ post /\ Startup.lower w = n.
Proof.
  induction n as [|a n IH]; intros t H.
  - exists "", t. split; reflexivity.
  - destruct t as [|c t]; [discriminate H|]. simpl in H.
    destruct (ascii_dec a (Startup.lower_char c)) as [->|]; [|discriminate H].
    destruct (IH t H) as (w & post & -> & <-).
    exists (String c w), post. split; reflexivity.
Qed.

Lemma contains_in_lower n :
  forall t, Startup.contains n (Startup.lower t) = true ->
            exists pre w post, t = pre +:+ w +:+ post /\ Startup.lower w = n.
Proof.
  induction t as [|c t IH]; intros H.
  - simpl in H. rewrite orb_false_r in H.
    destruct (prefix_of_lower n "" H) as (w & post & E & L).
    exists "", w, post. split; [exact E|exact L].
  - cbn [Startup.lower Startup.contains] in H.
    apply orb_true_iff in H. destruct H as [H|H].
    + destruct (prefix_of_lower n (String c t) H) as (w & post & E & L).
      exists "", w, post. split; [exact E|exact L].
    + destruct (IH H) as (pre & w & post & -> & L).
      exists (String c pre), w, post. split; [reflexivity|exact L].
Qed.

(** X12. A device is of a door type exactly when its type has a piece
    that reads "door" once lowered, wherever it stands and however it is
    capitalised; a device without a type is not of a door type. *)
Theorem door_type_is_a_case_insensitive_substring :
  forall t,
    Startup.is_door_type None = false
    /\ (Startup.is_door_type (Some t) = true
        <-> exists pre w post,
              t = pre +:+ w +:+ post /\ Startup.lower w = "door").
Proof.
  intros t. split; [reflexivity|].
  change (Startup.is_door_type (Some t))
    with (Startup.contains "door" (Startup.lower t)).
  split.
  - apply contains_in_lower.
  - intros (pre & w & post & -> & L).
    rewrite !lower_app, L. apply contains_app.
Qed.

(** ** Starting up *)

(** X13. When the configuration file cannot be found, [main] logs one
    ERROR record naming the path and exits with code 1, in either mode,
    before the sheet is opened, a login is attempted or a poll is
    made. *)
Theorem missing_config_exits_with_code_1 :
  forall dry_run config files gs login es,
    Startup.main dry_run config (delete config files) gs login es
    = Startup.SysExit 1
        [Startup.mk_log Startup.ERROR
           "Config file not found: %s — copy config.yaml.example to config.yaml and fill it in."
           [Startup.Str config]].
Proof.
  intros dry_run config files gs login es.
  unfold Startup.main, Startup.load_config.
  rewrite lookup_delete_eq. reflexivity.
Qed.

Lemma session_ignores_sheet_section cfg login dry_run es :
  Startup.poll_loop_session (delete "google_sheets" cfg) login dry_run es
  = Startup.poll_loop_session cfg login dry_run es.
Proof.
  unfold Startup.poll_loop_session, Startup.getitem2, Startup.cfg_getitem,
    get_interval.
  rewrite !lookup_delete_ne by discriminate. reflexivity.
Qed.

(** X14. The sheet is opened only in durable mode. In dry-run mode [main]
    gives the same result whatever the spreadsheet client would answer
    and whether or not the configuration has a [google_sheets] section;
    in durable mode a configuration without that section ends [main] on
    a [KeyError], after "Connecting to Google Sheets..." and before any
    login. *)
Theorem sheet_is_opened_only_in_durable_mode :
  forall config files cfg gs gs' login es,
    Startup.main true config (<[config := delete "google_sheets" cfg]> files)
      gs' login es
    = Startup.main true config (<[config := cfg]> files) gs login es
    /\ Startup.main false config
         (<[config := delete "google_sheets" cfg]> files) gs login es
       = Startup.Uncaught "KeyError"
           [Startup.mk_log Startup.INFO "Connecting to Google Sheets..." []].
Proof.
  intros config files cfg gs gs' login es.
  unfold Startup.main, Startup.load_config. rewrite !lookup_insert_eq.
  split; [apply session_ignores_sheet_section|].
  unfold Startup.get_sheet, Startup.getitem2, Startup.cfg_getitem.
  rewrite lookup_delete_eq. reflexivity.
Qed.

(** X15. A configuration without a [myq] section ends [poll_loop] on a
    [KeyError] when the credentials are read: after the "Starting poll
    loop" record, and whatever the login would have answered. *)
Theorem missing_credentials_end_the_start :
  forall cfg login dry_run es,
    Startup.poll_loop_session (delete "myq" cfg) login dry_run es
    = Startup.Uncaught "KeyError"
        [Startup.mk_log Startup.INFO
           "Starting poll loop (interval=%ds, dry_run=%s)"
           [Startup.Val (get_interval cfg); Startup.Flag dry_run]].
Proof.
  intros cfg login dry_run es.
  unfold Startup.poll_loop_session, Startup.getitem2, Startup.cfg_getitem,
    get_interval.
  rewrite lookup_delete_eq, lookup_delete_ne by discriminate. reflexivity.
Qed.

Lemma while_true_never_exits d interval es :
  forall s code, while_true d interval es s <> Exited code.
Proof.
  induction es as [|e es IH]; intros s code; [discriminate|].
  cbn [while_true].
  destruct (iteration d interval e s) as [[[]|msg] s'];
    [apply IH|discriminate].
Qed.

(** X16. Once the credentials are read and the login has listed the
    devices, [poll_loop] goes on as the loop does for that many devices:
    it exits with code 1 when there is none and otherwise runs the
    iterations, with the same interval and from the same initial state,
    whichever device was chosen; the records logged before are the
    "Starting poll loop" record and those of the choice of the door. *)
Theorem session_runs_the_loop :
  forall cfg login dry_run es email password devices,
    Startup.getitem2 cfg "myq" "email" = Ok email ->
    Startup.getitem2 cfg "myq" "password" = Ok password ->
    login email password = Startup.LoggedIn devices ->
    let logs :=
      Startup.mk_log Startup.INFO
        "Starting poll loop (interval=%ds, dry_run=%s)"
        [Startup.Val (get_interval cfg); Startup.Flag dry_run]
      :: selection_logs (Startup.select_door devices) in
    Startup.poll_loop_session cfg login dry_run es
    = match poll_loop cfg (List.length devices) dry_run es with
      | Exited code => Startup.SysExit code logs
      | o => Startup.Loop logs o
      end.
Proof.
  intros cfg login dry_run es email password devices E P L logs. subst logs.
  unfold Startup.poll_loop_session, poll_loop. rewrite E, P, L.
  destruct devices as [|[id first] rest]; [reflexivity|].
  cbn [List.length Nat.eqb].
  destruct (Startup.select_door ((id, first) :: rest)) as [l|dev l] eqn:S.
  - unfold Startup.select_door in S.
    destruct (Startup.find_door ((id, first) :: rest) None) as [[x|] l'];
      discriminate S.
  - cbn [selection_logs app].
    destruct (while_true dry_run (get_interval cfg) es initial) eqn:W;
      try reflexivity.
    destruct (while_true_never_exits _ _ _ _ _ W).
Qed.

Lemma session_witness :
  let garage :=
    Startup.mk_device "Garage" (Some "garagedooropener") (Some "closed") "D1" in
  let cfg : gmap string yaml :=
    {[ "myq" := YMap [("email", YStr "me@example.org");
                      ("password", YStr "secret")] ]} in
  let login := fun _ _ : yaml => Startup.LoggedIn [("D1", garage)] in
  exists logs,
    Startup.poll_loop_session cfg login true [ok "closed" 0; ok "open" 30]
    = Startup.Loop logs
        (Running (run true 30 [ok "closed" 0; ok "open" 30] initial)).
Proof.
  intros garage cfg login. eexists.
  rewrite (session_runs_the_loop cfg login true
             [ok "closed" 0; ok "open" 30] (YStr "me@example.org")
             (YStr "secret") [("D1", garage)] eq_refl eq_refl eq_refl).
  reflexivity.
Defined.
